(** * LogMonkey log-file parser ([barrels/LogMonkey/parse_log_file.py])

    A shallow embedding of the line matcher, the line parser, the filter,
    the width counters, the three output formats and the file loop of
    [parse_log_file.py], followed by the properties of the specification.

    Python 2 [str] values are byte strings: they are modelled as
    [list ascii].  Indices are [Z], because [str.find] answers [-1] when the
    needle is absent and slices accept negative bounds. *)

From Stdlib Require Import String.
From Stdlib Require Import List Ascii ZArith Lia Bool Arith.
Import ListNotations.

Open Scope char_scope.
Open Scope nat_scope.
Open Scope list_scope.

(** ** Python strings *)

Module PyStr.

Definition pystr := list ascii.

(** A string literal of the source. *)
Definition str (s : String.string) : pystr := String.list_ascii_of_string s.
Arguments str s%_string.

Definition LF : ascii := ascii_of_nat 10.

Definition len (s : pystr) : Z := Z.of_nat (length s).

(** [s == t] on byte strings. *)
Fixpoint str_eqb (s t : pystr) : bool :=
  match s, t with
  | [], [] => true
  | a :: s', b :: t' => Ascii.eqb a b && str_eqb s' t'
  | _, _ => false
  end.

(** [c in s] for a one-character needle [c]. *)
Definition contains (c : ascii) (s : pystr) : bool :=
  existsb (Ascii.eqb c) s.

(** [x in l] for a list of strings [l]. *)
Definition str_in (x : pystr) (l : list pystr) : bool :=
  existsb (str_eqb x) l.

(** How Python turns a slice or search bound into a position of [s]:
    a negative bound counts from the end, and the result is clamped
    to [0 .. len s]. *)
Definition clamp (s : pystr) (i : Z) : nat :=
  let n := len s in
  let j := if (i <? 0)%Z then (i + n)%Z else i in
  if (j <? 0)%Z then 0%nat
  else if (n <? j)%Z then length s
  else Z.to_nat j.

(** Offset of the first [c] in [s], if any. *)
Fixpoint index_of (c : ascii) (s : pystr) : option nat :=
  match s with
  | [] => None
  | a :: s' =>
      if Ascii.eqb a c then Some 0%nat
      else match index_of c s' with
           | Some i => Some (S i)
           | None => None
           end
  end.

(** [s.find(c, start)] for a one-character needle: the lowest index
    [>= start] holding [c], or [-1]. *)
Definition find_from (s : pystr) (c : ascii) (start : Z) : Z :=
  let st := clamp s start in
  match index_of c (skipn st s) with
  | Some i => Z.of_nat (st + i)
  | None => (-1)%Z
  end.

(** [s.find(c)]. *)
Definition find (s : pystr) (c : ascii) : Z := find_from s c 0.

(** [s.rfind(c)]: the highest index holding [c], or [-1]. *)
Definition rfind (s : pystr) (c : ascii) : Z :=
  match index_of c (rev s) with
  | Some i => (len s - 1 - Z.of_nat i)%Z
  | None => (-1)%Z
  end.

(** [s[a:b]]. *)
Definition slice (s : pystr) (a b : Z) : pystr :=
  let i := clamp s a in
  let j := clamp s b in
  firstn (j - i) (skipn i s).

(** [s[a:]]. *)
Definition slice_from (s : pystr) (a : Z) : pystr :=
  skipn (clamp s a) s.

(** [s[:b]]. *)
Definition slice_to (s : pystr) (b : Z) : pystr :=
  firstn (clamp s b) s.

(** [c.isspace()] for a byte in the C locale: tab, line feed, vertical
    tab, form feed, carriage return and space. *)
Definition isspace (c : ascii) : bool :=
  let n := nat_of_ascii c in
  ((9 <=? n) && (n <=? 13)) || (n =? 32).

Fixpoint lstrip (s : pystr) : pystr :=
  match s with
  | [] => []
  | c :: s' => if isspace c then lstrip s' else s
  end.

Definition rstrip (s : pystr) : pystr := rev (lstrip (rev s)).

(** [s.strip()]. *)
Definition strip (s : pystr) : pystr := rstrip (lstrip s).

(** ["{:<w}".format(s)]: [s] left-justified in a field of [w] columns,
    filled with spaces; a string longer than [w] is left as it is. *)
Definition ljust (s : pystr) (w : nat) : pystr :=
  s ++ repeat " " (w - length s).

(** [fmt.format(a0, a1, ...)] for the replacement fields the source uses:
    [{n}] with a one-digit position [n], and the escapes [{{] and [}}].
    [None] stands for the exception Python raises (a position past the
    arguments, or a brace that opens or closes nothing). *)
Definition digit_val (c : ascii) : option nat :=
  let n := nat_of_ascii c in
  if (48 <=? n) && (n <=? 57) then Some (n - 48) else None.

Fixpoint format (fmt : pystr) (args : list pystr) : option pystr :=
  match fmt with
  | [] => Some []
  | "{" :: "{" :: r => option_map (cons "{") (format r args)
  | "}" :: "}" :: r => option_map (cons "}") (format r args)
  | "{" :: d :: "}" :: r =>
      match digit_val d with
      | Some n =>
          match nth_error args n, format r args with
          | Some a, Some out => Some (a ++ out)
          | _, _ => None
          end
      | None => None
      end
  | "{" :: _ => None
  | "}" :: _ => None
  | c :: r => option_map (cons c) (format r args)
  end.

End PyStr.
Import PyStr.

(** ** Regular expressions, as Python's [re] module matches them *)

Module Re.

(** The constructs [LOG_LINE_PATTERN] is written with.  [Bol] is [^],
    [Eol] is [$], [Cls p] is a one-character set ([[0-9]], [\w], [[^:]],
    [.]) given by its membership test. *)
Inductive regex : Type :=
| Bol : regex
| Eol : regex
| Eps : regex
| Lit : ascii -> regex
| Cls : (ascii -> bool) -> regex
| Seq : regex -> regex -> regex
| Star : regex -> regex.

(** [r+] *)
Definition Plus (r : regex) : regex := Seq r (Star r).

(** [r{n}] *)
Fixpoint Rep (n : nat) (r : regex) : regex :=
  match n with
  | 0 => Eps
  | S n' => Seq r (Rep n' r)
  end.

(** Juxtaposition of the items of a pattern. *)
Fixpoint cat (rs : list regex) : regex :=
  match rs with
  | [] => Eps
  | r :: rs' => Seq r (cat rs')
  end.

(** Without the MULTILINE flag [$] holds at the end of the subject and
    just before a line feed that is its last character. *)
Definition at_end (s : pystr) : bool :=
  match s with
  | [] => true
  | [c] => Ascii.eqb c LF
  | _ => false
  end.

(** Iteration of a star: each round must consume something, so [fuel]
    rounds suffice for a subject of [fuel] characters. *)
Fixpoint star_loop (step : nat -> pystr -> (nat -> pystr -> bool) -> bool)
         (k : nat -> pystr -> bool) (fuel pos : nat) (s : pystr) : bool :=
  match fuel with
  | 0 => k pos s
  | S fuel' =>
      step pos s (fun pos' s' =>
                    (length s' <? length s) && star_loop step k fuel' pos' s')
      || k pos s
  end.

(** Backtracking matcher: [run r pos s k] tries every way [r] can
    consume a prefix of [s], the subject's remainder at position [pos],
    and asks the continuation [k] about what follows. *)
Fixpoint run (r : regex) (pos : nat) (s : pystr)
         (k : nat -> pystr -> bool) {struct r} : bool :=
  match r with
  | Bol => (pos =? 0) && k pos s
  | Eol => at_end s && k pos s
  | Eps => k pos s
  | Lit c =>
      match s with
      | a :: s' => Ascii.eqb a c && k (S pos) s'
      | [] => false
      end
  | Cls p =>
      match s with
      | a :: s' => p a && k (S pos) s'
      | [] => false
      end
  | Seq r1 r2 => run r1 pos s (fun pos' s' => run r2 pos' s' k)
  | Star r1 => star_loop (run r1) k (length s) pos s
  end.

(** [r.match(s)] is not [None]: some prefix of [s], taken from
    position 0, matches [r]. *)
Definition re_match (r : regex) (s : pystr) : bool :=
  run r 0 s (fun _ _ => true).

(** What the matcher decides: [Steps r pos s pos' s'] when [r] can take
    the cursor from [pos] (remainder [s]) to [pos'] (remainder [s']). *)
Inductive Steps : regex -> nat -> pystr -> nat -> pystr -> Prop :=
| StBol s : Steps Bol 0 s 0 s
| StEol pos s : at_end s = true -> Steps Eol pos s pos s
| StEps pos s : Steps Eps pos s pos s
| StLit c pos s : Steps (Lit c) pos (c :: s) (S pos) s
| StCls p a pos s : p a = true -> Steps (Cls p) pos (a :: s) (S pos) s
| StSeq r1 r2 pos s pos1 s1 pos2 s2 :
    Steps r1 pos s pos1 s1 -> Steps r2 pos1 s1 pos2 s2 ->
    Steps (Seq r1 r2) pos s pos2 s2
| StStar0 r pos s : Steps (Star r) pos s pos s
| StStarS r pos s pos1 s1 pos2 s2 :
    Steps r pos s pos1 s1 -> Steps (Star r) pos1 s1 pos2 s2 ->
    Steps (Star r) pos s pos2 s2.

End Re.
Import Re.

(** ** The program *)

(** Character sets of [LOG_LINE_PATTERN]. *)
Definition in_range (lo hi c : ascii) : bool :=
  (nat_of_ascii lo <=? nat_of_ascii c) && (nat_of_ascii c <=? nat_of_ascii hi).

(** [[0-9]] *)
Definition is_digit (c : ascii) : bool := in_range "0" "9" c.

(** [[0-9: -]] *)
Definition is_stamp (c : ascii) : bool :=
  is_digit c || Ascii.eqb c ":" || Ascii.eqb c " " || Ascii.eqb c "-".

(** [\w] on a byte string without LOCALE or UNICODE: [[a-zA-Z0-9_]]. *)
Definition is_word (c : ascii) : bool :=
  in_range "a" "z" c || in_range "A" "Z" c || is_digit c || Ascii.eqb c "_".

(** [[^:]] *)
Definition not_colon (c : ascii) : bool := negb (Ascii.eqb c ":").

(** [.] without DOTALL: anything but a line feed. *)
Definition dot (c : ascii) : bool := negb (Ascii.eqb c LF).

(** [LOG_LINE_PATTERN]:
    [^\(lmf([0-9])+\)\[[0-9: -]{19}\] \{\w+\} [^:]+: .*$] *)
Definition LOG_LINE_PATTERN : regex :=
  cat [ Bol; Lit "("; Lit "l"; Lit "m"; Lit "f"; Plus (Cls is_digit); Lit ")";
        Lit "["; Rep 19 (Cls is_stamp); Lit "]"; Lit " ";
        Lit "{"; Plus (Cls is_word); Lit "}"; Lit " ";
        Plus (Cls not_colon); Lit ":"; Lit " "; Star (Cls dot); Eol ].

Definition LOG_FILE_OUTPUT_FORMAT : pystr := str "({0})[{1}] {{{2}}} {3}: {4}".
Definition CSV_FILE_OUTPUT_FORMAT : pystr := str "{0},{1},{2},{3}".

Definition DQUOTE : ascii := ascii_of_nat 34.

(** The mutable globals [LOG_LEVEL_WIDTH] and [TAG_WIDTH]. *)
Record Widths : Type := mkWidths {
  LOG_LEVEL_WIDTH : nat;
  TAG_WIDTH : nat
}.

(** The values the module gives them when it is loaded. *)
Definition initial_widths : Widths :=
  {| LOG_LEVEL_WIDTH := 0; TAG_WIDTH := 0 |}.

(** The records of the program.  Their fields carry the names of the
    source, which its functions also use for parameters: inside such a
    function the field is written [Log.logLevel]. *)
Module Log.

(** [class LogLine] *)
Record LogLine : Type := mkLogLine {
  rawValue : pystr;
  logFormat : pystr;
  timestamp : pystr;
  logLevel : pystr;
  tag : pystr;
  message : pystr
}.

(** A file object open for writing: its [name] and what was written. *)
Record OutFile : Type := mkOutFile {
  name : pystr;
  written : pystr
}.

(** The output side of the program: the file given with [-o], if any,
    and what [print] has sent to standard output. *)
Record Sink : Type := mkSink {
  outputFile : option OutFile;
  stdout : pystr
}.

End Log.
Import Log.

(** [LogLine.__str__] *)
Definition __str__ (self : LogLine) : pystr := strip self.(rawValue).

(** [LogLine.matches_filters]; [None] is Python's [None]. *)
Definition matches_filters (self : LogLine) (logLevel : option pystr)
           (tagFilter : option (list pystr)) : bool :=
  if match logLevel with
     | Some l => negb (str_eqb l self.(Log.logLevel))
     | None => false
     end
  then false
  else if match tagFilter with
          | Some tf => negb (str_in self.(tag) tf)
          | None => false
          end
  then false
  else true.

(** [LogLine.to_spaced_string] *)
Definition to_spaced_string (self : LogLine) (logLevelWidth tagWidth : nat)
  : option pystr :=
  let formattedLogFormat := self.(logFormat) in
  let formattedTimestamp := self.(timestamp) in
  let formattedLogLevel := ljust self.(logLevel) logLevelWidth in
  let formattedTag := ljust self.(tag) tagWidth in
  let formattedMessage := self.(message) in
  format LOG_FILE_OUTPUT_FORMAT
         [formattedLogFormat; formattedTimestamp; formattedLogLevel;
          formattedTag; formattedMessage].

(** [LogLine.to_csv_string] *)
Definition to_csv_string (self : LogLine) : option pystr :=
  let formattedTimestamp := self.(timestamp) in
  let formattedTimestamp :=
    if contains "," formattedTimestamp
    then [DQUOTE] ++ formattedTimestamp ++ [DQUOTE] else formattedTimestamp in
  let formattedLogLevel := self.(logLevel) in
  let formattedLogLevel :=
    if contains "," formattedLogLevel
    then [DQUOTE] ++ formattedLogLevel ++ [DQUOTE] else formattedLogLevel in
  let formattedTag := self.(tag) in
  let formattedTag :=
    if contains "," formattedTag
    then [DQUOTE] ++ formattedTag ++ [DQUOTE] else formattedTag in
  let formattedMessage := self.(message) in
  let formattedMessage :=
    if contains "," formattedMessage
    then [DQUOTE] ++ formattedMessage ++ [DQUOTE] else formattedMessage in
  format CSV_FILE_OUTPUT_FORMAT
         [formattedTimestamp; formattedLogLevel; formattedTag; formattedMessage].

(** [os.path.splitext] (posixpath): the extension starts at the last dot
    of the last path component, unless only dots precede it there. *)
Definition splitext (p : pystr) : pystr * pystr :=
  let sepIndex := rfind p "/" in
  let dotIndex := rfind p "." in
  if (sepIndex <? dotIndex)%Z then
    if existsb (fun c => negb (Ascii.eqb c "."))
               (slice p (sepIndex + 1) dotIndex)
    then (slice_to p dotIndex, slice_from p dotIndex)
    else (p, [])
  else (p, []).

(** [f.write(data)] *)
Definition write (f : OutFile) (data : pystr) : OutFile :=
  {| name := f.(name); written := f.(written) ++ data |}.

(** [LogLine.output_log_line]; the sink carries the [outputFile] argument.
    [print x] writes [x] and a line feed to standard output. *)
Definition output_log_line (self : LogLine) (sink : Sink) (spaceColumns : bool)
           (g : Widths) : option Sink :=
  match sink.(outputFile) with
  | Some f =>
      let text :=
        if str_eqb (slice_from (snd (splitext f.(name))) 1) (str "csv")
        then to_csv_string self
        else if spaceColumns
        then to_spaced_string self g.(LOG_LEVEL_WIDTH) g.(TAG_WIDTH)
        else Some (__str__ self) in
      match text with
      | Some t =>
          Some {| outputFile := Some (write (write f t) [LF]);
                  stdout := sink.(stdout) |}
      | None => None
      end
  | None =>
      let text :=
        if spaceColumns
        then to_spaced_string self g.(LOG_LEVEL_WIDTH) g.(TAG_WIDTH)
        else Some (__str__ self) in
      match text with
      | Some t =>
          Some {| outputFile := None; stdout := sink.(stdout) ++ t ++ [LF] |}
      | None => None
      end
  end.

(** [parse_log_line] *)
Definition parse_log_line (line : pystr) : LogLine :=
  let startIndex := (find line "(" + 1)%Z in
  let endIndex := find_from line ")" startIndex in
  let logFormat := slice line startIndex endIndex in
  let startIndex := (find line "[" + 1)%Z in
  let endIndex := find_from line "]" startIndex in
  let timestamp := slice line startIndex endIndex in
  let startIndex := (find_from line "{" endIndex + 1)%Z in
  let endIndex := find_from line "}" startIndex in
  let logLevel := slice line startIndex endIndex in
  let startIndex := (endIndex + 1)%Z in
  let endIndex := find_from line ":" startIndex in
  let tag := strip (slice line startIndex endIndex) in
  let startIndex := (endIndex + 1)%Z in
  let message := strip (slice_from line startIndex) in
  mkLogLine line logFormat timestamp logLevel tag message.

(** The body of the [for line in input] loop of
    [read_through_input_file]: the list built so far and the two globals
    go in, and come out updated. *)
Definition scan_line (logLevel : option pystr) (tagFilter : option (list pystr))
           (acc : list LogLine * Widths) (line : pystr) : list LogLine * Widths :=
  let (logLines, g) := acc in
  if re_match LOG_LINE_PATTERN line then
    let logLine := parse_log_line line in
    if matches_filters logLine logLevel tagFilter then
      let logLines := logLines ++ [logLine] in
      let lw := if g.(LOG_LEVEL_WIDTH) <? length logLine.(Log.logLevel)
                then length logLine.(Log.logLevel)
                else g.(LOG_LEVEL_WIDTH) in
      let tw := if g.(TAG_WIDTH) <? length logLine.(tag)
                then length logLine.(tag)
                else g.(TAG_WIDTH) in
      (logLines, {| LOG_LEVEL_WIDTH := lw; TAG_WIDTH := tw |})
    else (logLines, g)
  else (logLines, g).

(** The files the program can read: [fs path] is the sequence of lines
    that iterating over [open(path)] yields, [None] when [open] fails. *)
Definition FileSystem : Type := pystr -> option (list pystr).

(** [read_through_input_file]; [None] is the exception of a failed [open]. *)
Definition read_through_input_file (fs : FileSystem) (path : pystr)
           (logLevel : option pystr) (tagFilter : option (list pystr))
           (g : Widths) : option (list LogLine * Widths) :=
  match fs path with
  | Some input => Some (fold_left (scan_line logLevel tagFilter) input ([], g))
  | None => None
  end.

(** [main], the reading loop:
    [for path in inputPaths: logLines = list(logLines + read_through_input_file(...))] *)
Fixpoint read_paths (fs : FileSystem) (inputPaths : list pystr)
         (logLevel : option pystr) (tagFilter : option (list pystr))
         (logLines : list LogLine) (g : Widths) : option (list LogLine * Widths) :=
  match inputPaths with
  | [] => Some (logLines, g)
  | path :: rest =>
      match read_through_input_file fs path logLevel tagFilter g with
      | Some (found, g') =>
          read_paths fs rest logLevel tagFilter (logLines ++ found) g'
      | None => None
      end
  end.

(** [main], the writing loop: [for line in logLines: line.output_log_line(...)] *)
Fixpoint write_lines (logLines : list LogLine) (sink : Sink)
         (spaceColumns : bool) (g : Widths) : option Sink :=
  match logLines with
  | [] => Some sink
  | line :: rest =>
      match output_log_line line sink spaceColumns g with
      | Some sink' => write_lines rest sink' spaceColumns g
      | None => None
      end
  end.

(** The file object [open(n, "w")] gives; the opening is taken to
    succeed. *)
Definition open_w (n : pystr) : OutFile := {| name := n; written := [] |}.

(** [main] after its options are read: [inputPaths], [outputFile] (the
    argument of [-o]), [logLevel], [tagFilter] and [spaceColumns].
    The result is the sink when the program ends. *)
Definition main (fs : FileSystem) (inputPaths : list pystr)
           (outputFile : option pystr) (logLevel : option pystr)
           (tagFilter : option (list pystr)) (spaceColumns : bool)
  : option Sink :=
  match read_paths fs inputPaths logLevel tagFilter [] initial_widths with
  | Some (logLines, g) =>
      let file := option_map open_w outputFile in
      write_lines logLines {| Log.outputFile := file; stdout := [] |}
                  spaceColumns g
  | None => None
  end.

(** ** The shape of a log line, in words *)

(** The shape [LOG_LINE_PATTERN] describes: [(lmf<digits>)[<stamp>]
    {<level>} <tag>: <rest>], where the colon that ends the tag is
    followed by a space, [rest] holds no line feed, and one line feed may
    end the line. *)
Definition line_shape (line : pystr) : Prop :=
  exists digits stamp level tag rest eol,
    line = str "(lmf" ++ digits ++ str ")[" ++ stamp ++ str "] {" ++ level
               ++ str "} " ++ tag ++ str ": " ++ rest ++ eol
    /\ digits <> [] /\ forallb is_digit digits = true
    /\ length stamp = 19 /\ forallb is_stamp stamp = true
    /\ level <> [] /\ forallb is_word level = true
    /\ tag <> [] /\ forallb not_colon tag = true
    /\ forallb dot rest = true
    /\ (eol = [] \/ eol = [LF]).

(** The shape as the specification words it: after the tag a colon, then
    any remaining text up to the end of the line. *)
Definition claimed_shape (line : pystr) : Prop :=
  exists digits stamp level tag rest eol,
    line = str "(lmf" ++ digits ++ str ")[" ++ stamp ++ str "] {" ++ level
               ++ str "} " ++ tag ++ str ":" ++ rest ++ eol
    /\ digits <> [] /\ forallb is_digit digits = true
    /\ length stamp = 19 /\ forallb is_stamp stamp = true
    /\ level <> [] /\ forallb is_word level = true
    /\ tag <> [] /\ forallb not_colon tag = true
    /\ forallb dot rest = true
    /\ (eol = [] \/ eol = [LF]).

(** ** The fields of a log line, in words *)

(** The text before the first [c] of [s], the text after it, and the text
    from it on; [None] when [s] holds no [c]. *)
Fixpoint before_first (c : ascii) (s : pystr) : option pystr :=
  match s with
  | [] => None
  | a :: s' =>
      if Ascii.eqb a c then Some []
      else option_map (cons a) (before_first c s')
  end.

Fixpoint after_first (c : ascii) (s : pystr) : option pystr :=
  match s with
  | [] => None
  | a :: s' => if Ascii.eqb a c then Some s' else after_first c s'
  end.

Fixpoint from_first (c : ascii) (s : pystr) : option pystr :=
  match s with
  | [] => None
  | a :: s' => if Ascii.eqb a c then Some s else from_first c s'
  end.

Definition bind {A B : Type} (x : option A) (f : A -> option B) : option B :=
  match x with
  | Some a => f a
  | None => None
  end.

Notation "x <- e ;; k" := (bind e (fun x => k))
  (at level 61, e at next level, right associativity).

(** The five fields as the specification describes them, each between
    its delimiters; [None] when a delimiter is not found. *)
Definition fields_in_words (line : pystr) : option LogLine :=
  in_paren <- after_first "(" line ;;
  format_ <- before_first ")" in_paren ;;
  in_bracket <- after_first "[" line ;;
  stamp <- before_first "]" in_bracket ;;
  from_bracket <- from_first "]" in_bracket ;;
  in_brace <- after_first "{" from_bracket ;;
  level <- before_first "}" in_brace ;;
  after_brace <- after_first "}" in_brace ;;
  tag_ <- before_first ":" after_brace ;;
  after_colon <- after_first ":" after_brace ;;
  Some (mkLogLine line format_ stamp level (strip tag_) (strip after_colon)).

(** [x] occurs in [s] as a run of consecutive characters. *)
Definition substring_of (x s : pystr) : Prop :=
  exists before after, s = before ++ x ++ after.

(** The characters [parse_log_line] searches for. *)
Definition delimiters : list ascii := ["("; ")"; "["; "]"; "{"; "}"; ":"].

(** No white space at either end. *)
Definition clean (s : pystr) : Prop :=
  (forall a u, s = a :: u -> isspace a = false) /\
  (forall a u, rev s = a :: u -> isspace a = false).

(** ** Vocabulary of the statements *)

(** Nothing after the first closing brace of [line] is a colon: the
    separator between tag and message is missing. *)
Definition lacks_separator (line : pystr) : Prop :=
  forall before after,
    line = before ++ "}" :: after -> ~ In "}" before -> ~ In ":" after.

(** The same, as a test. *)
Definition lacks_separator_b (line : pystr) : bool :=
  match after_first "}" line with
  | Some after => negb (contains ":" after)
  | None => true
  end.

(** Matcher, then Parser, then Filter Evaluator, on one line. *)
Definition accepted (logLevel : option pystr) (tagFilter : option (list pystr))
           (line : pystr) : bool :=
  re_match LOG_LINE_PATTERN line
  && matches_filters (parse_log_line line) logLevel tagFilter.

(** The longest value of a field among the entries. *)
Definition widest (field : LogLine -> pystr) (entries : list LogLine) : nat :=
  list_max (map (fun e => length (field e)) entries).

(** A CSV field: the value between double quotes when it holds a comma,
    the bare value when it does not. *)
Definition quoted_iff_comma (value field : pystr) : Prop :=
  (In "," value -> field = [DQUOTE] ++ value ++ [DQUOTE]) /\
  (~ In "," value -> field = value).

Definition ends_with (suffix s : pystr) : Prop :=
  exists before, s = before ++ suffix.

(** A file name with the extension [.csv]: it is [dir ++ base ++ ".csv"]
    where [dir] is empty or ends with the path separator, [base] holds no
    separator and at least one character that is not a dot. *)
Definition csv_name (n : pystr) : Prop :=
  exists dir base,
    n = dir ++ base ++ str ".csv"
    /\ (dir = [] \/ exists d, dir = d ++ ["/"])
    /\ ~ In "/" base
    /\ exists c, In c base /\ c <> ".".

(** All the files at [paths] can be opened, with these contents. *)
Definition readable (fs : FileSystem) (paths : list pystr)
           (contents : list (list pystr)) : Prop :=
  Forall2 (fun path input => fs path = Some input) paths contents.

(** The counters after the entries [es] have been observed, one by one,
    from the counters [g]. *)
Definition grow (g : Widths) (es : list LogLine) : Widths :=
  {| LOG_LEVEL_WIDTH := Nat.max (LOG_LEVEL_WIDTH g) (widest logLevel es);
     TAG_WIDTH := Nat.max (TAG_WIDTH g) (widest tag es) |}.

(** ** The command line *)

(** [s.split(c)] for a one-character separator [c]. *)
Fixpoint split (s : pystr) (c : ascii) : list pystr :=
  match s with
  | [] => [[]]
  | a :: s' =>
      if Ascii.eqb a c then [] :: split s' c
      else match split s' c with
           | piece :: pieces => (a :: piece) :: pieces
           | [] => [[a]]
           end
  end.

(** [c.join(pieces)], the inverse the statements about [split] use. *)
Fixpoint join (c : ascii) (pieces : list pystr) : pystr :=
  match pieces with
  | [] => []
  | [piece] => piece
  | piece :: rest => piece ++ c :: join c rest
  end.

(** The text [print_help] prints, before the line feed [print] adds,
    line by line. *)
Definition HELP_TEXT : pystr :=
  join LF
    [
      str "";
      str "Main Page:";
      str "    https://github.com/garmin/connectiq-apps/tree/master/barrels/LogMonkey";
      str "Description:";
      str "    This script takes log files generated by the LogMonkey Connect";
      str "    IQ Monkey Barrel as input, parses them and then outputs the parsed";
      str "    content.";
      str "Arguments:";
      str "    Pass a list of log files to parse:";
      str "    log_file1.txt log_file2.txt";
      str "Options:";
      str "    '-l logLevel'   : The log level to filter on.";
      str "    '-t tag_values' : The tag value(s) to filter on. Values should be separated by";
      str "                      commas. Tag values with a space should be wrapped in quotes.";
      str "    '-o output_file': The file to write output to instead of standard out. The values";
      str "                      will be output in the same (potentially formatted) output format";
      str "                      unless the provided file is a .csv file in which case the fields";
      str "                      will be csv formatted.";
      str "    '-s'            : If this flag is set the output format will make the columns spacing";
      str "                      equivalent throughout the file.";
      str "    '-h'            : Prints this message.";
      str "Example:";
      str "    python parse_log_file -l D -t tag myLog.txt";
      str "    "
    ].

Module Cli.

(** The local variables of [main] that the options set. *)
Record Locals : Type := mkLocals {
  outputFile : option pystr;
  tagFilter : option (list pystr);
  logLevel : option pystr;
  spaceColumns : bool
}.

(** Their values before the options are read. *)
Definition initial_locals : Locals :=
  {| outputFile := None; tagFilter := None; logLevel := None;
     spaceColumns := false |}.

(** What [getopt.getopt(sys.argv[1:], 'o:l:t:sh')] gives: the pairs of
    option and argument with the remaining arguments, or the exception
    [GetoptError] with its message. *)
Inductive Getopt : Type :=
| Parsed (optlist : list (pystr * pystr)) (args : list pystr)
| GetoptError (err : pystr).

(** How the script ends: [exit(code)] after having printed [printed],
    the end of [main] with the output in [sink], or an exception [main]
    does not catch (a failed [open]). *)
Inductive Outcome : Type :=
| Exit (code : nat) (printed : pystr)
| Finished (sink : Sink)
| Uncaught.

(** One round of [for option, arg in optlist]; [None] is the round of
    [-h], which prints the help and exits. *)
Definition option_step (v : Locals) (oa : pystr * pystr) : option Locals :=
  let (option, arg) := oa in
  if str_eqb option (str "-o") then
    Some {| outputFile := Some arg; tagFilter := tagFilter v;
            logLevel := logLevel v; spaceColumns := spaceColumns v |}
  else if str_eqb option (str "-l") then
    Some {| outputFile := outputFile v; tagFilter := tagFilter v;
            logLevel := Some arg; spaceColumns := spaceColumns v |}
  else if str_eqb option (str "-t") then
    Some {| outputFile := outputFile v; tagFilter := Some (split arg ",");
            logLevel := logLevel v; spaceColumns := spaceColumns v |}
  else if str_eqb option (str "-s") then
    Some {| outputFile := outputFile v; tagFilter := tagFilter v;
            logLevel := logLevel v; spaceColumns := true |}
  else if str_eqb option (str "-h") then None
  else Some v.

Fixpoint option_loop (optlist : list (pystr * pystr)) (v : Locals)
  : option Locals :=
  match optlist with
  | [] => Some v
  | oa :: rest =>
      match option_step v oa with
      | Some v' => option_loop rest v'
      | None => None
      end
  end.

(** [for path in inputPaths: if not os.path.isfile(path): ...]: the first
    path that is not a file, if any. *)
Fixpoint first_invalid (isfile : pystr -> bool) (inputPaths : list pystr)
  : option pystr :=
  match inputPaths with
  | [] => None
  | path :: rest =>
      if negb (isfile path) then Some path else first_invalid isfile rest
  end.

(** [main], whole: the result of [getopt] goes in, with the file system
    ([isfile] is [os.path.isfile]). *)
Definition main (fs : FileSystem) (isfile : pystr -> bool) (parsed : Getopt)
  : Outcome :=
  match parsed with
  | GetoptError err => Exit 1 (err ++ [LF] ++ HELP_TEXT ++ [LF])
  | Parsed optlist args =>
      let inputPaths : option (list pystr) := Some args in
      match inputPaths with
      | None => Exit 2 (str "No input path(s) provided" ++ [LF])
      | Some inputPaths =>
          match first_invalid isfile inputPaths with
          | Some path => Exit 3 (str "Path isn't valid: " ++ path ++ [LF])
          | None =>
              match option_loop optlist initial_locals with
              | None => Exit 0 (HELP_TEXT ++ [LF])
              | Some v =>
                  match main fs inputPaths (outputFile v) (logLevel v)
                             (tagFilter v) (spaceColumns v) with
                  | Some sink => Finished sink
                  | None => Uncaught
                  end
              end
          end
      end
  end.

(** The argument of the last occurrence of the option [opt] in
    [optlist], if it occurs. *)
Fixpoint last_arg (opt : pystr) (optlist : list (pystr * pystr))
  : option pystr :=
  match optlist with
  | [] => None
  | (o, a) :: rest =>
      match last_arg opt rest with
      | Some x => Some x
      | None => if str_eqb o opt then Some a else None
      end
  end.

(** The option [opt] occurs in [optlist]. *)
Definition has_option (opt : pystr) (optlist : list (pystr * pystr)) : bool :=
  existsb (fun oa => str_eqb (fst oa) opt) optlist.

End Cli.

(** ** Trimming, in words *)

(** [y] is [x] with the white space at its two ends removed: [x] is [y]
    between two runs of white space, and [y] has none at either end. *)
Definition trimmed (x y : pystr) : Prop :=
  exists before after,
    x = before ++ y ++ after
    /\ forallb isspace before = true
    /\ forallb isspace after = true
    /\ clean y.

(** The five texts between the delimiters the specification names, as
    they stand in the line: format, timestamp, level, the text from the
    level's closing brace to the next colon, and the text after that
    colon.  [None] when a delimiter is not found. *)
Definition delimited_texts (line : pystr)
  : option (pystr * pystr * pystr * pystr * pystr) :=
  in_paren <- after_first "(" line ;;
  format_ <- before_first ")" in_paren ;;
  in_bracket <- after_first "[" line ;;
  stamp <- before_first "]" in_bracket ;;
  from_bracket <- from_first "]" in_bracket ;;
  in_brace <- after_first "{" from_bracket ;;
  level <- before_first "}" in_brace ;;
  after_brace <- after_first "}" in_brace ;;
  tag_text <- before_first ":" after_brace ;;
  message_text <- after_first ":" after_brace ;;
  Some (format_, stamp, level, tag_text, message_text).

(** * Properties *)

(** ** The matcher decides [Steps] *)

Module ReFacts.

Lemma Steps_suffix r pos s pos' s' :
  Steps r pos s pos' s' ->
  exists w, s = w ++ s' /\ pos' = pos + length w.
Proof.
  induction 1.
  - exists []; auto.
  - exists []; auto.
  - exists []; auto.
  - exists [c]; simpl; split; [reflexivity | lia].
  - exists [a]; simpl; split; [reflexivity | lia].
  - destruct IHSteps1 as (w1 & -> & ->), IHSteps2 as (w2 & -> & ->).
    exists (w1 ++ w2). rewrite app_assoc, length_app. split; [reflexivity | lia].
  - exists []; auto.
  - destruct IHSteps1 as (w1 & -> & ->), IHSteps2 as (w2 & -> & ->).
    exists (w1 ++ w2). rewrite app_assoc, length_app. split; [reflexivity | lia].
Qed.

Lemma Steps_same_length r pos s pos' s' :
  Steps r pos s pos' s' -> length s <= length s' -> s' = s /\ pos' = pos.
Proof.
  intros H Hl. destruct (Steps_suffix _ _ _ _ _ H) as (w & -> & ->).
  rewrite length_app in Hl. destruct w; simpl in *; [split; auto | lia].
Qed.

Section StarLoop.
Variable r : regex.
Variable step : nat -> pystr -> (nat -> pystr -> bool) -> bool.
Variable k : nat -> pystr -> bool.

Hypothesis step_sound : forall pos s k',
    step pos s k' = true ->
    exists pos' s', Steps r pos s pos' s' /\ k' pos' s' = true.
Hypothesis step_complete : forall pos s pos' s' k',
    Steps r pos s pos' s' -> k' pos' s' = true -> step pos s k' = true.

Lemma star_loop_sound fuel : forall pos s,
    star_loop step k fuel pos s = true ->
    exists pos' s', Steps (Star r) pos s pos' s' /\ k pos' s' = true.
Proof.
  induction fuel as [|fuel IH]; simpl; intros pos s H.
  - exists pos, s. split; [constructor | assumption].
  - apply orb_true_iff in H. destruct H as [H | H].
    + apply step_sound in H. destruct H as (pos1 & s1 & H1 & H2).
      apply andb_true_iff in H2. destruct H2 as [_ H2].
      apply IH in H2. destruct H2 as (pos2 & s2 & H2 & H3).
      exists pos2, s2. split; [econstructor; eassumption | assumption].
    + exists pos, s. split; [constructor | assumption].
Qed.

Lemma star_loop_complete pos s pos' s' :
  Steps (Star r) pos s pos' s' -> k pos' s' = true ->
  forall fuel, length s <= fuel -> star_loop step k fuel pos s = true.
Proof.
  intros H. remember (Star r) as R eqn:ER.
  induction H; try discriminate; injection ER as ->; intros Hk fuel Hf.
  - destruct fuel; simpl; [assumption | rewrite Hk; apply orb_true_r].
  - destruct (Nat.lt_ge_cases (length s1) (length s)) as [Hlt | Hge].
    + destruct fuel as [|fuel]; [lia |]. simpl.
      apply orb_true_iff. left.
      apply step_complete with (pos' := pos1) (s' := s1); [assumption |].
      apply andb_true_iff. split.
      * apply Nat.ltb_lt. assumption.
      * apply IHSteps2; [reflexivity | assumption | lia].
    + destruct (Steps_same_length _ _ _ _ _ H Hge) as [-> ->].
      apply IHSteps2; [reflexivity | assumption | assumption].
Qed.
End StarLoop.

Lemma run_sound r : forall pos s k,
    run r pos s k = true ->
    exists pos' s', Steps r pos s pos' s' /\ k pos' s' = true.
Proof.
  induction r as [ | | | c | p | r1 IH1 r2 IH2 | r1 IH1]; simpl; intros pos s k H.
  - apply andb_true_iff in H. destruct H as [H1 H2].
    apply Nat.eqb_eq in H1. subst. exists 0, s. split; [constructor | assumption].
  - apply andb_true_iff in H. destruct H as [H1 H2].
    exists pos, s. split; [constructor; assumption | assumption].
  - exists pos, s. split; [constructor | assumption].
  - destruct s as [|a s]; [discriminate |].
    apply andb_true_iff in H. destruct H as [H1 H2].
    apply Ascii.eqb_eq in H1. subst. exists (S pos), s. split; [constructor | assumption].
  - destruct s as [|a s]; [discriminate |].
    apply andb_true_iff in H. destruct H as [H1 H2].
    exists (S pos), s. split; [constructor; assumption | assumption].
  - apply IH1 in H. destruct H as (pos1 & s1 & H1 & H2).
    apply IH2 in H2. destruct H2 as (pos2 & s2 & H2 & H3).
    exists pos2, s2. split; [econstructor; eassumption | assumption].
  - eapply star_loop_sound; [apply IH1 | eassumption].
Qed.

Lemma run_complete r : forall pos s pos' s' k,
    Steps r pos s pos' s' -> k pos' s' = true -> run r pos s k = true.
Proof.
  induction r as [ | | | c | p | r1 IH1 r2 IH2 | r1 IH1]; simpl;
    intros pos s pos' s' k H Hk.
  - inversion H; subst. simpl. assumption.
  - inversion H; subst. rewrite Hk.
    match goal with E : at_end _ = true |- _ => rewrite E end. reflexivity.
  - inversion H; subst. assumption.
  - inversion H; subst. rewrite Ascii.eqb_refl, Hk. reflexivity.
  - inversion H; subst.
    match goal with E : p _ = true |- _ => rewrite E end. rewrite Hk. reflexivity.
  - inversion H; subst. eapply IH1; [eassumption |]. eapply IH2; eassumption.
  - eapply star_loop_complete; [apply IH1 | eassumption | assumption | apply Nat.le_refl].
Qed.

(** [re_match] succeeds exactly when the pattern can step from the
    start of the subject to somewhere in it. *)
Lemma re_match_Steps r s :
  re_match r s = true <-> exists pos' s', Steps r 0 s pos' s'.
Proof.
  unfold re_match. split.
  - intros H. apply run_sound in H. destruct H as (pos' & s' & H & _). eauto.
  - intros (pos' & s' & H). eapply run_complete; [eassumption | reflexivity].
Qed.

End ReFacts.

(** ** What each item of the pattern consumes *)

Module PatternFacts.

Lemma Steps_Seq_inv r1 r2 pos s pos' s' :
  Steps (Seq r1 r2) pos s pos' s' ->
  exists pos1 s1, Steps r1 pos s pos1 s1 /\ Steps r2 pos1 s1 pos' s'.
Proof. inversion 1; subst; eauto. Qed.

Lemma Steps_Lit_inv c pos s pos' s' :
  Steps (Lit c) pos s pos' s' -> s = c :: s'.
Proof. inversion 1; subst; reflexivity. Qed.

Lemma Steps_Eol_inv pos s pos' s' :
  Steps Eol pos s pos' s' -> s' = s /\ (s = [] \/ s = [LF]).
Proof.
  intros H. inversion H as [ | ? ? E | | | | | | ]; subst. split; [reflexivity |].
  destruct s' as [|c [|d u]]; simpl in E; try discriminate; auto.
  right. f_equal. apply Ascii.eqb_eq. assumption.
Qed.

Lemma Steps_Bol_inv pos s pos' s' :
  Steps Bol pos s pos' s' -> s' = s.
Proof. inversion 1; subst; reflexivity. Qed.

Lemma Steps_StarCls_inv p pos s pos' s' :
  Steps (Star (Cls p)) pos s pos' s' ->
  exists w, s = w ++ s' /\ forallb p w = true.
Proof.
  intros H. remember (Star (Cls p)) as R eqn:ER.
  induction H; try discriminate; injection ER as ->.
  - exists []. auto.
  - destruct (IHSteps2 eq_refl) as (w & -> & Hw).
    inversion H; subst. exists (a :: w). simpl. split; [reflexivity |].
    apply andb_true_iff; auto.
Qed.

Lemma Steps_PlusCls_inv p pos s pos' s' :
  Steps (Plus (Cls p)) pos s pos' s' ->
  exists w, s = w ++ s' /\ w <> [] /\ forallb p w = true.
Proof.
  intros H. apply Steps_Seq_inv in H. destruct H as (pos1 & s1 & H1 & H2).
  apply Steps_StarCls_inv in H2. destruct H2 as (w & -> & Hw).
  inversion H1; subst. exists (a :: w). simpl.
  split; [reflexivity | split; [discriminate | apply andb_true_iff; auto]].
Qed.

Lemma Steps_RepCls_inv p n : forall pos s pos' s',
  Steps (Rep n (Cls p)) pos s pos' s' ->
  exists w, s = w ++ s' /\ length w = n /\ forallb p w = true.
Proof.
  induction n as [|n IH]; simpl; intros pos s pos' s' H.
  - inversion H; subst. exists []. auto.
  - apply Steps_Seq_inv in H. destruct H as (pos1 & s1 & H1 & H2).
    apply IH in H2. destruct H2 as (w & -> & Hl & Hw).
    inversion H1; subst. exists (a :: w). simpl.
    split; [reflexivity | split; [reflexivity | apply andb_true_iff; auto]].
Qed.

Lemma Steps_StarCls_intro p w : forall pos s',
    forallb p w = true -> exists pos', Steps (Star (Cls p)) pos (w ++ s') pos' s'.
Proof.
  induction w as [|a w IH]; simpl; intros pos s' H.
  - exists pos. constructor.
  - apply andb_true_iff in H. destruct H as [Ha Hw].
    destruct (IH (S pos) s' Hw) as (pos' & H').
    exists pos'. econstructor; [constructor; assumption | eassumption].
Qed.

Lemma Steps_PlusCls_intro p w pos s' :
  w <> [] -> forallb p w = true ->
  exists pos', Steps (Plus (Cls p)) pos (w ++ s') pos' s'.
Proof.
  destruct w as [|a w]; [congruence |]. simpl. intros _ H.
  apply andb_true_iff in H. destruct H as [Ha Hw].
  destruct (Steps_StarCls_intro p w (S pos) s' Hw) as (pos' & H').
  exists pos'. econstructor; [constructor; assumption | eassumption].
Qed.

Lemma Steps_RepCls_intro p w : forall pos s',
    forallb p w = true ->
    exists pos', Steps (Rep (length w) (Cls p)) pos (w ++ s') pos' s'.
Proof.
  induction w as [|a w IH]; simpl; intros pos s' H.
  - exists pos. constructor.
  - apply andb_true_iff in H. destruct H as [Ha Hw].
    destruct (IH (S pos) s' Hw) as (pos' & H').
    exists pos'. econstructor; [constructor; assumption | eassumption].
Qed.

(** The pattern and the shape in words describe the same lines. *)
Lemma LOG_LINE_PATTERN_shape line :
  re_match LOG_LINE_PATTERN line = true <-> line_shape line.
Proof.
  rewrite ReFacts.re_match_Steps. unfold LOG_LINE_PATTERN, line_shape. cbn [cat].
  split.
  - intros (pos' & s' & H).
    repeat match type of H with
           | Steps (Seq _ _) _ _ _ _ =>
               let H1 := fresh "H" in
               apply Steps_Seq_inv in H; destruct H as (? & ? & H1 & H)
           end.
    repeat match goal with
           | H : Steps (Lit _) _ _ _ _ |- _ => apply Steps_Lit_inv in H
           | H : Steps Bol _ _ _ _ |- _ => apply Steps_Bol_inv in H
           | H : Steps Eol _ _ _ _ |- _ =>
               apply Steps_Eol_inv in H; destruct H as [? ?]
           | H : Steps Eps _ _ _ _ |- _ => inversion H; clear H
           | H : Steps (Plus (Cls _)) _ _ _ _ |- _ =>
               apply Steps_PlusCls_inv in H; destruct H as (? & ? & ? & ?)
           | H : Steps (Star (Cls _)) _ _ _ _ |- _ =>
               apply Steps_StarCls_inv in H; destruct H as (? & ? & ?)
           | H : Steps (Rep _ (Cls _)) _ _ _ _ |- _ =>
               apply Steps_RepCls_inv in H; destruct H as (? & ? & ? & ?)
           end.
    subst.
    match goal with
    | |- exists _ _ _ _ _ _, (_ :: _ :: _ :: _ :: ?d ++ _ :: _ :: ?t ++ _ :: _ :: _ :: ?l ++ _ :: _ :: ?g ++ _ :: _ :: ?r ++ ?e) = _ /\ _ =>
        exists d, t, l, g, r, e
    end.
    unfold str; simpl.
    repeat split; assumption.
  - intros (d & t & l & g & r & e & -> & Hd0 & Hd & Ht0 & Ht & Hl0 & Hl & Hg0 & Hg & Hr & He).
    unfold str; simpl.
    edestruct (Steps_PlusCls_intro is_digit d) as (p1 & S1); [eassumption .. |].
    edestruct (Steps_RepCls_intro is_stamp t) as (p2 & S2); [eassumption |].
    edestruct (Steps_PlusCls_intro is_word l) as (p3 & S3); [eassumption .. |].
    edestruct (Steps_PlusCls_intro not_colon g) as (p4 & S4); [eassumption .. |].
    edestruct (Steps_StarCls_intro dot r) as (p5 & S5); [eassumption |].
    rewrite Ht0 in S2.
    do 2 eexists.
    eapply StSeq; [apply StBol |].
    do 4 (eapply StSeq; [apply StLit |]).
    eapply StSeq; [apply S1 |].
    do 2 (eapply StSeq; [apply StLit |]).
    eapply StSeq; [apply S2 |].
    do 3 (eapply StSeq; [apply StLit |]).
    eapply StSeq; [apply S3 |].
    do 2 (eapply StSeq; [apply StLit |]).
    eapply StSeq; [apply S4 |].
    do 2 (eapply StSeq; [apply StLit |]).
    eapply StSeq; [apply S5 |].
    eapply StSeq; [apply StEol | apply StEps].
    destruct He as [-> | ->]; reflexivity.
Qed.

End PatternFacts.

(** ** Searching and slicing a string that is given in pieces *)

Module PyStrFacts.

Lemma index_of_first c mid rest :
  ~ In c mid -> index_of c (mid ++ c :: rest) = Some (length mid).
Proof.
  induction mid as [|a mid IH]; simpl; intros Hn.
  - rewrite Ascii.eqb_refl. reflexivity.
  - destruct (Ascii.eqb a c) eqn:E.
    + apply Ascii.eqb_eq in E. exfalso. apply Hn. left. assumption.
    + rewrite IH; [reflexivity | intros Hin; apply Hn; right; assumption].
Qed.

Lemma index_of_absent c s : ~ In c s -> index_of c s = None.
Proof.
  induction s as [|a s IH]; simpl; intros Hn; [reflexivity |].
  destruct (Ascii.eqb a c) eqn:E.
  - apply Ascii.eqb_eq in E. exfalso. apply Hn. left. assumption.
  - rewrite IH; [reflexivity | intros Hin; apply Hn; right; assumption].
Qed.

Lemma index_of_split c s i :
  index_of c s = Some i ->
  exists p q, s = p ++ c :: q /\ ~ In c p /\ length p = i.
Proof.
  revert i. induction s as [|a s IH]; simpl; intros i H; [discriminate |].
  destruct (Ascii.eqb a c) eqn:E.
  - apply Ascii.eqb_eq in E. subst a. injection H as <-.
    exists [], s. simpl. auto.
  - destruct (index_of c s) as [j|]; [| discriminate]. injection H as <-.
    destruct (IH j eq_refl) as (p & q & -> & Hn & Hl).
    exists (a :: p), q. simpl. repeat split; [| congruence].
    intros [Ha | Hin]; [| exact (Hn Hin)].
    subst a. rewrite Ascii.eqb_refl in E. discriminate.
Qed.

Lemma index_of_present c s : In c s -> exists i, index_of c s = Some i.
Proof.
  intros Hin. destruct (index_of c s) as [i|] eqn:E; [eauto |].
  exfalso. revert E. induction s as [|a s IH]; simpl; [destruct Hin |].
  destruct (Ascii.eqb a c) eqn:Ea; [discriminate |].
  destruct Hin as [-> | Hin]; [rewrite Ascii.eqb_refl in Ea; discriminate |].
  destruct (index_of c s); [discriminate | intros _; apply IH; auto].
Qed.

Lemma clamp_nat s n : n <= length s -> clamp s (Z.of_nat n) = n.
Proof.
  intros H. unfold clamp, len. cbv zeta.
  destruct (Z.ltb_spec (Z.of_nat n) 0); [lia |].
  repeat match goal with |- context [(?a <? ?b)%Z] => destruct (Z.ltb_spec a b) end; lia.
Qed.

Lemma clamp_le s i : clamp s i <= length s.
Proof.
  unfold clamp, len. cbv zeta.
  destruct (Z.ltb_spec i 0);
  repeat match goal with |- context [(?a <? ?b)%Z] => destruct (Z.ltb_spec a b) end; lia.
Qed.

Lemma skipn_app_exact {A} (p q : list A) : skipn (length p) (p ++ q) = q.
Proof. induction p; simpl; auto. Qed.

Lemma firstn_app_exact {A} (p q : list A) : firstn (length p) (p ++ q) = p.
Proof. induction p; simpl; [reflexivity | f_equal; assumption]. Qed.

(** The next [c] at or after the end of [p], when none occurs in [mid]. *)
Lemma find_from_at s c p mid rest start :
  s = p ++ mid ++ c :: rest -> ~ In c mid -> start = Z.of_nat (length p) ->
  find_from s c start = (start + Z.of_nat (length mid))%Z.
Proof.
  intros -> Hn ->. unfold find_from.
  rewrite clamp_nat by (rewrite length_app; lia).
  rewrite skipn_app_exact, index_of_first by assumption. lia.
Qed.

Lemma find_from_absent s c p rest start :
  s = p ++ rest -> ~ In c rest -> start = Z.of_nat (length p) ->
  find_from s c start = (-1)%Z.
Proof.
  intros -> Hn ->. unfold find_from.
  rewrite clamp_nat by (rewrite length_app; lia).
  rewrite skipn_app_exact, index_of_absent by assumption. reflexivity.
Qed.

Lemma slice_at s p mid rest a b :
  s = p ++ mid ++ rest -> a = Z.of_nat (length p) ->
  b = (a + Z.of_nat (length mid))%Z -> slice s a b = mid.
Proof.
  intros -> -> ->. unfold slice.
  rewrite <- Nat2Z.inj_add.
  rewrite !clamp_nat by (rewrite !length_app; lia).
  rewrite skipn_app_exact.
  replace (length p + length mid - length p) with (length mid) by lia.
  apply firstn_app_exact.
Qed.

Lemma slice_from_at s p rest a :
  s = p ++ rest -> a = Z.of_nat (length p) -> slice_from s a = rest.
Proof.
  intros -> ->. unfold slice_from.
  rewrite clamp_nat by (rewrite length_app; lia).
  apply skipn_app_exact.
Qed.

Lemma forallb_not_In (p : ascii -> bool) c w :
  forallb p w = true -> p c = false -> ~ In c w.
Proof.
  intros H Hc Hin. rewrite forallb_forall in H. apply H in Hin. congruence.
Qed.

End PyStrFacts.
Module ParserFacts.
Import PyStrFacts.

Ltac list_eq := simpl; repeat (rewrite <- app_assoc; simpl); reflexivity.
Ltac len_eq :=
  repeat first [ rewrite length_app | rewrite Nat2Z.inj_add
               | rewrite Nat2Z.inj_succ | progress simpl length ];
  lia.
Ltac not_in :=
  first [ assumption
        | intros Hin;
          repeat first [ progress simpl in Hin | rewrite in_app_iff in Hin ];
          intuition (try discriminate; auto) ].

Lemma parse_log_line_pieces f t l g r :
  ~ In ")" f -> ~ In "[" f -> ~ In "]" t -> ~ In "}" l -> ~ In ":" g ->
  forall line,
    line = "(" :: f ++ ")" :: "[" :: t ++ "]" :: " " :: "{" :: l ++ "}" :: g ++ ":" :: r ->
    parse_log_line line = mkLogLine line f t l (strip g) (strip r).
Proof.
  intros Hf1 Hf2 Ht Hl Hg line E.
  unfold parse_log_line, find.
  rewrite (find_from_at line "(" [] []
             (f ++ ")" :: "[" :: t ++ "]" :: " " :: "{" :: l ++ "}" :: g ++ ":" :: r))
    by first [ rewrite E; list_eq | not_in | len_eq ].
  rewrite (find_from_at line ")" ["("] f
             ("[" :: t ++ "]" :: " " :: "{" :: l ++ "}" :: g ++ ":" :: r))
    by first [ rewrite E; list_eq | not_in | len_eq ].
  rewrite (find_from_at line "[" [] ("(" :: f ++ [")"])
             (t ++ "]" :: " " :: "{" :: l ++ "}" :: g ++ ":" :: r))
    by first [ rewrite E; list_eq | not_in | len_eq ].
  rewrite (find_from_at line "]" ("(" :: f ++ [")"; "["]) t
             (" " :: "{" :: l ++ "}" :: g ++ ":" :: r))
    by first [ rewrite E; list_eq | not_in | len_eq ].
  rewrite (find_from_at line "{" ("(" :: f ++ ")" :: "[" :: t) ["]"; " "]
             (l ++ "}" :: g ++ ":" :: r))
    by first [ rewrite E; list_eq | not_in | len_eq ].
  rewrite (find_from_at line "}" ("(" :: f ++ ")" :: "[" :: t ++ ["]"; " "; "{"]) l
             (g ++ ":" :: r))
    by first [ rewrite E; list_eq | not_in | len_eq ].
  rewrite (find_from_at line ":" ("(" :: f ++ ")" :: "[" :: t ++ "]" :: " " :: "{" :: l ++ ["}"]) g r)
    by first [ rewrite E; list_eq | not_in | len_eq ].
  rewrite (slice_at line ["("] f
             (")" :: "[" :: t ++ "]" :: " " :: "{" :: l ++ "}" :: g ++ ":" :: r))
    by first [ rewrite E; list_eq | len_eq ].
  rewrite (slice_at line ("(" :: f ++ [")"; "["]) t
             ("]" :: " " :: "{" :: l ++ "}" :: g ++ ":" :: r))
    by first [ rewrite E; list_eq | len_eq ].
  rewrite (slice_at line ("(" :: f ++ ")" :: "[" :: t ++ ["]"; " "; "{"]) l
             ("}" :: g ++ ":" :: r))
    by first [ rewrite E; list_eq | len_eq ].
  rewrite (slice_at line ("(" :: f ++ ")" :: "[" :: t ++ "]" :: " " :: "{" :: l ++ ["}"]) g
             (":" :: r))
    by first [ rewrite E; list_eq | len_eq ].
  rewrite (slice_from_at line
             ("(" :: f ++ ")" :: "[" :: t ++ "]" :: " " :: "{" :: l ++ "}" :: g ++ [":"]) r)
    by first [ rewrite E; list_eq | len_eq ].
  reflexivity.
Qed.
End ParserFacts.

(** ** Stripping *)

Module StripFacts.

Lemma lstrip_split s :
  exists ws, s = ws ++ lstrip s /\ forallb isspace ws = true
             /\ forall a u, lstrip s = a :: u -> isspace a = false.
Proof.
  induction s as [|c s (ws & E & Hws & Hh)]; simpl.
  - exists []. repeat split; discriminate.
  - destruct (isspace c) eqn:Ec.
    + exists (c :: ws). simpl. rewrite Ec, Hws.
      repeat split; [congruence | assumption].
    + exists []. repeat split.
      intros a u [= <- <-]. assumption.
Qed.

Lemma lstrip_spaces ws s :
  forallb isspace ws = true -> lstrip (ws ++ s) = lstrip s.
Proof.
  induction ws as [|c ws IH]; simpl; [reflexivity |].
  intros H. apply andb_true_iff in H. destruct H as [-> H]. auto.
Qed.

Lemma lstrip_head s :
  (forall a u, s = a :: u -> isspace a = false) -> lstrip s = s.
Proof.
  destruct s as [|c s]; simpl; [reflexivity |].
  intros H. rewrite (H c s eq_refl). reflexivity.
Qed.

Lemma forallb_rev {A} (p : A -> bool) l :
  forallb p l = true -> forallb p (rev l) = true.
Proof.
  rewrite !forallb_forall. intros H x Hx. apply H. apply in_rev. assumption.
Qed.

Lemma rstrip_spaces s ws :
  forallb isspace ws = true -> rstrip (s ++ ws) = rstrip s.
Proof.
  intros H. unfold rstrip. rewrite rev_app_distr, lstrip_spaces; [reflexivity |].
  apply forallb_rev. assumption.
Qed.

Lemma strip_clean x : clean (strip x).
Proof.
  unfold strip, rstrip, clean. rewrite rev_involutive.
  destruct (lstrip_split x) as (_ & _ & _ & Hy).
  destruct (lstrip_split (rev (lstrip x))) as (ws & E & Hws & Hz).
  split; [| assumption].
  intros a u Ea. apply (Hy a (u ++ rev ws)).
  rewrite <- (rev_involutive (lstrip x)), E, rev_app_distr, Ea. reflexivity.
Qed.

Lemma strip_padded t ws1 ws2 :
  clean t -> forallb isspace ws1 = true -> forallb isspace ws2 = true ->
  strip (ws1 ++ t ++ ws2) = t.
Proof.
  intros [Hh Hl] H1 H2. unfold strip. rewrite lstrip_spaces by assumption.
  destruct t as [|a t].
  - simpl. destruct (lstrip_split ws2) as (w & E & _ & Hn).
    destruct (lstrip ws2) as [|b u] eqn:Eb; [reflexivity |].
    exfalso. specialize (Hn b u eq_refl).
    rewrite forallb_forall in H2. rewrite (H2 b) in Hn; [discriminate |].
    rewrite E. apply in_or_app. right. left. reflexivity.
  - rewrite lstrip_head.
    + rewrite rstrip_spaces by assumption. unfold rstrip.
      rewrite lstrip_head by assumption. apply rev_involutive.
    + intros b u [= <- <-]. apply (Hh a t). reflexivity.
Qed.

Lemma lstrip_suffix s : exists ws, s = ws ++ lstrip s.
Proof. destruct (lstrip_split s) as (ws & E & _). eauto. Qed.

Lemma rstrip_prefix s : exists ws, s = rstrip s ++ ws.
Proof.
  unfold rstrip. destruct (lstrip_suffix (rev s)) as (ws & E).
  exists (rev ws). rewrite <- rev_app_distr, <- E, rev_involutive. reflexivity.
Qed.

(** A stripped string sits inside the original. *)
Lemma strip_inside s : exists ws1 ws2, s = ws1 ++ strip s ++ ws2.
Proof.
  destruct (lstrip_suffix s) as (ws1 & E1).
  destruct (rstrip_prefix (lstrip s)) as (ws2 & E2).
  exists ws1, ws2. unfold strip. rewrite <- E2. assumption.
Qed.

Lemma strip_In c s : In c (strip s) -> In c s.
Proof.
  destruct (strip_inside s) as (ws1 & ws2 & E). intros H. rewrite E.
  apply in_or_app. right. apply in_or_app. left. assumption.
Qed.

End StripFacts.

(** ** The matcher and the parser on lines of the right shape *)

Module LineFacts.
Import PyStrFacts ParserFacts StripFacts.

Lemma shape_has_separator line : line_shape line -> ~ lacks_separator line.
Proof.
  intros (d & t & l & g & r & e & E & _ & Hd & _ & Ht & _ & Hl & _) Hno.
  assert (Nd : ~ In "}" d) by (eapply forallb_not_In; [eassumption | reflexivity]).
  assert (Nt : ~ In "}" t) by (eapply forallb_not_In; [eassumption | reflexivity]).
  assert (Nl : ~ In "}" l) by (eapply forallb_not_In; [eassumption | reflexivity]).
  apply (Hno (str "(lmf" ++ d ++ str ")[" ++ t ++ str "] {" ++ l)
             (" " :: g ++ str ": " ++ r ++ e)).
  - rewrite E. unfold str. list_eq.
  - unfold str. not_in.
  - right. apply in_or_app. right. left. reflexivity.
Qed.

Lemma before_first_at c mid rest :
  ~ In c mid -> before_first c (mid ++ c :: rest) = Some mid.
Proof.
  induction mid as [|a mid IH]; simpl; intros Hn.
  - rewrite Ascii.eqb_refl. reflexivity.
  - destruct (Ascii.eqb a c) eqn:E.
    + apply Ascii.eqb_eq in E. exfalso. apply Hn. left. assumption.
    + rewrite IH; [reflexivity | intros Hin; apply Hn; right; assumption].
Qed.

Lemma after_first_at c mid rest :
  ~ In c mid -> after_first c (mid ++ c :: rest) = Some rest.
Proof.
  induction mid as [|a mid IH]; simpl; intros Hn.
  - rewrite Ascii.eqb_refl. reflexivity.
  - destruct (Ascii.eqb a c) eqn:E.
    + apply Ascii.eqb_eq in E. exfalso. apply Hn. left. assumption.
    + apply IH. intros Hin; apply Hn; right; assumption.
Qed.

Lemma from_first_at c mid rest :
  ~ In c mid -> from_first c (mid ++ c :: rest) = Some (c :: rest).
Proof.
  induction mid as [|a mid IH]; simpl; intros Hn.
  - rewrite Ascii.eqb_refl. reflexivity.
  - destruct (Ascii.eqb a c) eqn:E.
    + apply Ascii.eqb_eq in E. exfalso. apply Hn. left. assumption.
    + apply IH. intros Hin; apply Hn; right; assumption.
Qed.

Lemma contains_In c s : contains c s = true <-> In c s.
Proof.
  unfold contains. rewrite existsb_exists. split.
  - intros (x & Hx & E). apply Ascii.eqb_eq in E. subst. assumption.
  - intros H. exists c. split; [assumption | apply Ascii.eqb_refl].
Qed.

Lemma lacks_separator_b_sound line :
  lacks_separator_b line = true -> lacks_separator line.
Proof.
  unfold lacks_separator_b. intros H before after -> Hb Hin.
  rewrite after_first_at in H by assumption.
  apply contains_In in Hin. rewrite Hin in H. discriminate.
Qed.

Lemma lacks_separator_rejected line :
  lacks_separator line -> re_match LOG_LINE_PATTERN line = false.
Proof.
  intros H. destruct (re_match LOG_LINE_PATTERN line) eqn:E; [| reflexivity].
  apply PatternFacts.LOG_LINE_PATTERN_shape in E.
  exfalso. exact (shape_has_separator line E H).
Qed.

Lemma scan_line_rejected lf tf acc line :
  re_match LOG_LINE_PATTERN line = false -> scan_line lf tf acc line = acc.
Proof. intros H. unfold scan_line. destruct acc. rewrite H. reflexivity. Qed.

Lemma scan_all_rejected lf tf input : forall acc,
  Forall (fun line => re_match LOG_LINE_PATTERN line = false) input ->
  fold_left (scan_line lf tf) input acc = acc.
Proof.
  induction input as [|line input IH]; simpl; intros acc H; [reflexivity |].
  inversion H; subst. rewrite scan_line_rejected by assumption. auto.
Qed.

End LineFacts.

(** C1 (as amended).  [LOG_LINE_PATTERN] accepts a line exactly when it has
    the shape [(lmf<digits>)[<19 stamp characters>] {<word>} <tag>: <rest>]
    with a space after the colon that ends the tag, [rest] free of line
    feeds and at most one line feed ending the line.  A line with no colon
    after its first closing brace is rejected, adds no entry and leaves the
    width counters alone; a file of such lines makes the program write
    nothing, and no error is raised. *)
Theorem C1_matcher_shape :
  (forall line, re_match LOG_LINE_PATTERN line = true <-> line_shape line) /\
  (forall line, lacks_separator line ->
     re_match LOG_LINE_PATTERN line = false /\
     forall logLevel tagFilter acc, scan_line logLevel tagFilter acc line = acc) /\
  (forall fs path input out logLevel tagFilter spaceColumns,
     fs path = Some input -> Forall lacks_separator input ->
     main fs [path] out logLevel tagFilter spaceColumns
     = Some {| outputFile := option_map open_w out; stdout := [] |}).
Proof.
  split; [exact PatternFacts.LOG_LINE_PATTERN_shape |]. split.
  - intros line H. pose proof (LineFacts.lacks_separator_rejected line H) as R.
    split; [assumption |]. intros. apply LineFacts.scan_line_rejected. assumption.
  - intros fs path input out lf tf sc Hfs Hall.
    unfold main, read_paths, read_through_input_file. rewrite Hfs.
    rewrite LineFacts.scan_all_rejected; [reflexivity |].
    eapply Forall_impl; [| eassumption].
    intros line. apply LineFacts.lacks_separator_rejected.
Qed.

Lemma C1_matcher_shape_witness :
  re_match LOG_LINE_PATTERN
           (str "(lmf1)[2020-01-01 00:00:00] {DEBUG} net connected") = false.
Proof.
  refine (proj1 (proj1 (proj2 C1_matcher_shape) _ _)).
  apply LineFacts.lacks_separator_b_sound. vm_compute. reflexivity.
Defined.

(** C1 as the specification words it fails: the pattern wants a space
    after the colon, so this line, whose message follows the colon at
    once, has the shape in words but is rejected. *)
Lemma C1_counterexample :
  ~ (re_match LOG_LINE_PATTERN (str "(lmf1)[2020-01-01 00:00:00] {D} tag:msg") = true
     <-> claimed_shape (str "(lmf1)[2020-01-01 00:00:00] {D} tag:msg")).
Proof.
  intros [_ H].
  assert (C : claimed_shape (str "(lmf1)[2020-01-01 00:00:00] {D} tag:msg")).
  { exists (str "1"), (str "2020-01-01 00:00:00"), (str "D"), (str "tag"), (str "msg"), [].
    repeat split; try discriminate. left. reflexivity. }
  apply H in C. vm_compute in C. discriminate.
Qed.

Module ParseFacts.
Import PyStrFacts ParserFacts StripFacts LineFacts.

Lemma fields_in_words_pieces f t l g r :
  ~ In ")" f -> ~ In "[" f -> ~ In "]" t -> ~ In "}" l -> ~ In ":" g ->
  forall line,
    line = "(" :: f ++ ")" :: "[" :: t ++ "]" :: " " :: "{" :: l ++ "}" :: g ++ ":" :: r ->
    fields_in_words line = Some (mkLogLine line f t l (strip g) (strip r)).
Proof.
  intros Hf1 Hf2 Ht Hl Hg line E. unfold fields_in_words.
  replace (after_first "(" line)
    with (Some (f ++ ")" :: "[" :: t ++ "]" :: " " :: "{" :: l ++ "}" :: g ++ ":" :: r))
    by (rewrite E; reflexivity).
  cbn [bind]. rewrite before_first_at by assumption. cbn [bind].
  replace (after_first "[" line)
    with (Some (t ++ "]" :: " " :: "{" :: l ++ "}" :: g ++ ":" :: r)).
  2:{ rewrite E. symmetry.
      replace ("(" :: f ++ ")" :: "[" :: t ++ "]" :: " " :: "{" :: l ++ "}" :: g ++ ":" :: r)
        with (("(" :: f ++ [")"]) ++ "[" :: t ++ "]" :: " " :: "{" :: l ++ "}" :: g ++ ":" :: r)
        by list_eq.
      apply after_first_at. not_in. }
  cbn [bind]. rewrite before_first_at by assumption. cbn [bind].
  rewrite from_first_at by assumption. cbn [bind].
  replace (after_first "{" ("]" :: " " :: "{" :: l ++ "}" :: g ++ ":" :: r))
    with (Some (l ++ "}" :: g ++ ":" :: r)) by reflexivity.
  cbn [bind]. rewrite before_first_at by assumption. cbn [bind].
  rewrite after_first_at by assumption. cbn [bind].
  rewrite before_first_at by assumption. cbn [bind].
  rewrite after_first_at by assumption. cbn [bind].
  reflexivity.
Qed.

(** The pieces of a line of the right shape, cut where the parser
    cuts. *)
Lemma shape_pieces line :
  line_shape line ->
  exists d t l g r,
    line = "(" :: (str "lmf" ++ d) ++ ")" :: "[" :: t ++ "]" :: " " :: "{" :: l
               ++ "}" :: (" " :: g) ++ ":" :: r
    /\ d <> [] /\ forallb is_digit d = true
    /\ length t = 19 /\ forallb is_stamp t = true
    /\ l <> [] /\ forallb is_word l = true
    /\ forallb not_colon g = true
    /\ ~ In ")" (str "lmf" ++ d) /\ ~ In "[" (str "lmf" ++ d)
    /\ ~ In "]" t /\ ~ In "}" l /\ ~ In ":" (" " :: g).
Proof.
  intros (d & t & l & g & r & e & E & Hd0 & Hd & Ht0 & Ht & Hl0 & Hl & _ & Hg & _).
  exists d, t, l, g, (" " :: r ++ e).
  assert (N1 : ~ In ")" d) by (eapply forallb_not_In; [eassumption | reflexivity]).
  assert (N2 : ~ In "[" d) by (eapply forallb_not_In; [eassumption | reflexivity]).
  assert (N3 : ~ In "]" t) by (eapply forallb_not_In; [eassumption | reflexivity]).
  assert (N4 : ~ In "}" l) by (eapply forallb_not_In; [eassumption | reflexivity]).
  assert (N5 : ~ In ":" g) by (eapply forallb_not_In; [eassumption | reflexivity]).
  repeat match goal with |- _ /\ _ => split end; try assumption.
  - unfold str. not_in.
  - unfold str. not_in.
  - not_in.
Qed.

(** What the parser makes of a line of the right shape. *)
Lemma parse_log_line_matched line :
  re_match LOG_LINE_PATTERN line = true ->
  exists d t l g r,
    parse_log_line line = mkLogLine line (str "lmf" ++ d) t l (strip (" " :: g)) (strip r)
    /\ fields_in_words line = Some (parse_log_line line)
    /\ forallb is_digit d = true /\ forallb is_stamp t = true
    /\ forallb is_word l = true /\ forallb not_colon g = true.
Proof.
  intros H. apply PatternFacts.LOG_LINE_PATTERN_shape in H.
  destruct (shape_pieces line H)
    as (d & t & l & g & r & E & _ & Hd & _ & Ht & _ & Hl & Hg & N1 & N2 & N3 & N4 & N5).
  exists d, t, l, g, r.
  pose proof (parse_log_line_pieces _ _ _ _ _ N1 N2 N3 N4 N5 line E) as P.
  pose proof (fields_in_words_pieces _ _ _ _ _ N1 N2 N3 N4 N5 line E) as W.
  rewrite P, W. repeat split; assumption.
Qed.

End ParseFacts.

Module TrimFacts.
Import PyStrFacts ParserFacts StripFacts LineFacts.

Lemma rstrip_split s :
  exists ws, s = rstrip s ++ ws /\ forallb isspace ws = true.
Proof.
  unfold rstrip. destruct (lstrip_split (rev s)) as (ws & E & Hws & _).
  exists (rev ws). split; [| apply forallb_rev; assumption].
  rewrite <- rev_app_distr, <- E, rev_involutive. reflexivity.
Qed.

(** [strip] does what trimming means. *)
Lemma strip_trimmed x : trimmed x (strip x).
Proof.
  destruct (lstrip_split x) as (ws1 & E1 & H1 & _).
  destruct (rstrip_split (lstrip x)) as (ws2 & E2 & H2).
  exists ws1, ws2. unfold strip at 1. rewrite <- E2.
  split; [assumption |]. split; [assumption |]. split; [assumption |].
  apply strip_clean.
Qed.

(** Trimming has one result. *)
Lemma trimmed_unique x y : trimmed x y -> y = strip x.
Proof.
  intros (ws1 & ws2 & -> & H1 & H2 & Hc). symmetry.
  apply strip_padded; assumption.
Qed.

Lemma delimited_texts_pieces f t l g r :
  ~ In ")" f -> ~ In "[" f -> ~ In "]" t -> ~ In "}" l -> ~ In ":" g ->
  forall line,
    line = "(" :: f ++ ")" :: "[" :: t ++ "]" :: " " :: "{" :: l ++ "}" :: g ++ ":" :: r ->
    delimited_texts line = Some (f, t, l, g, r).
Proof.
  intros Hf1 Hf2 Ht Hl Hg line E. unfold delimited_texts.
  replace (after_first "(" line)
    with (Some (f ++ ")" :: "[" :: t ++ "]" :: " " :: "{" :: l ++ "}" :: g ++ ":" :: r))
    by (rewrite E; reflexivity).
  cbn [bind]. rewrite before_first_at by assumption. cbn [bind].
  replace (after_first "[" line)
    with (Some (t ++ "]" :: " " :: "{" :: l ++ "}" :: g ++ ":" :: r)).
  2:{ rewrite E. symmetry.
      replace ("(" :: f ++ ")" :: "[" :: t ++ "]" :: " " :: "{" :: l ++ "}" :: g ++ ":" :: r)
        with (("(" :: f ++ [")"]) ++ "[" :: t ++ "]" :: " " :: "{" :: l ++ "}" :: g ++ ":" :: r)
        by list_eq.
      apply after_first_at. not_in. }
  cbn [bind]. rewrite before_first_at by assumption. cbn [bind].
  rewrite from_first_at by assumption. cbn [bind].
  replace (after_first "{" ("]" :: " " :: "{" :: l ++ "}" :: g ++ ":" :: r))
    with (Some (l ++ "}" :: g ++ ":" :: r)) by reflexivity.
  cbn [bind]. rewrite before_first_at by assumption. cbn [bind].
  rewrite after_first_at by assumption. cbn [bind].
  rewrite before_first_at by assumption. cbn [bind].
  rewrite after_first_at by assumption. cbn [bind].
  reflexivity.
Qed.

(** The texts between the delimiters of a matched line and the entry
    the parser builds from them. *)
Lemma matched_texts line :
  re_match LOG_LINE_PATTERN line = true ->
  exists f t l g r,
    delimited_texts line = Some (f, t, l, g, r)
    /\ parse_log_line line = mkLogLine line f t l (strip g) (strip r).
Proof.
  intros H. apply PatternFacts.LOG_LINE_PATTERN_shape in H.
  destruct (ParseFacts.shape_pieces line H)
    as (d & t & l & g & r & E & _ & _ & _ & _ & _ & _ & _ & N1 & N2 & N3 & N4 & N5).
  exists (str "lmf" ++ d), t, l, (" " :: g), r.
  split.
  - exact (delimited_texts_pieces _ _ _ _ _ N1 N2 N3 N4 N5 line E).
  - exact (parse_log_line_pieces _ _ _ _ _ N1 N2 N3 N4 N5 line E).
Qed.

End TrimFacts.

(** C2.  On every line the matcher accepts, each delimiter the
    specification names is found, and the entry [parse_log_line] builds
    holds exactly the fields the specification describes: the format
    between the first parenthesis and the next closing one, the timestamp
    between the first bracket and the next closing one, the level between
    the first brace from that closing bracket on and the next closing
    brace, all three as they stand; the tag is the text from that closing
    brace to the next colon, and the message the text after that colon,
    each with the white space at its two ends removed, so that neither
    begins or ends with white space. *)
Theorem C2_parser_fields line :
  re_match LOG_LINE_PATTERN line = true ->
  fields_in_words line = Some (parse_log_line line)
  /\ exists format_ stamp level tag_text message_text,
       delimited_texts line = Some (format_, stamp, level, tag_text, message_text)
       /\ rawValue (parse_log_line line) = line
       /\ logFormat (parse_log_line line) = format_
       /\ timestamp (parse_log_line line) = stamp
       /\ logLevel (parse_log_line line) = level
       /\ trimmed tag_text (tag (parse_log_line line))
       /\ trimmed message_text (message (parse_log_line line)).
Proof.
  intros H. split.
  - destruct (ParseFacts.parse_log_line_matched line H) as (d & t & l & g & r & _ & W & _).
    exact W.
  - destruct (TrimFacts.matched_texts line H) as (f & t & l & g & r & D & P).
    exists f, t, l, g, r. rewrite P. cbn [rawValue logFormat timestamp logLevel tag message].
    repeat split; try assumption; apply TrimFacts.strip_trimmed.
Qed.

Lemma C2_parser_fields_witness :
  delimited_texts (str "(lmf1)[2020-01-01 00:00:00] {DEBUG}  net : connected  now ")
  = Some (str "lmf1", str "2020-01-01 00:00:00", str "DEBUG", str "  net ",
          str " connected  now ")
  /\ parse_log_line (str "(lmf1)[2020-01-01 00:00:00] {DEBUG}  net : connected  now ")
     = mkLogLine (str "(lmf1)[2020-01-01 00:00:00] {DEBUG}  net : connected  now ")
                 (str "lmf1") (str "2020-01-01 00:00:00") (str "DEBUG")
                 (str "net") (str "connected  now").
Proof.
  destruct (C2_parser_fields
              (str "(lmf1)[2020-01-01 00:00:00] {DEBUG}  net : connected  now "))
    as [W (f & t & l & g & r & D & _)].
  - vm_compute. reflexivity.
  - split.
    + vm_compute. reflexivity.
    + assert (E : fields_in_words
                    (str "(lmf1)[2020-01-01 00:00:00] {DEBUG}  net : connected  now ")
                  = Some (mkLogLine
                            (str "(lmf1)[2020-01-01 00:00:00] {DEBUG}  net : connected  now ")
                            (str "lmf1") (str "2020-01-01 00:00:00") (str "DEBUG")
                            (str "net") (str "connected  now")))
        by (vm_compute; reflexivity).
      congruence.
Defined.


(** ** Formatting *)

Module FormatFacts.

Lemma format_LOG a b c d e :
  format LOG_FILE_OUTPUT_FORMAT [a; b; c; d; e]
  = Some ("(" :: a ++ ")" :: "[" :: b ++ "]" :: " " :: "{" :: c ++ "}" :: " "
              :: d ++ ":" :: " " :: e).
Proof.
  unfold LOG_FILE_OUTPUT_FORMAT, str. simpl. rewrite app_nil_r. reflexivity.
Qed.

Lemma format_CSV a b c d :
  format CSV_FILE_OUTPUT_FORMAT [a; b; c; d]
  = Some (a ++ "," :: b ++ "," :: c ++ "," :: d).
Proof.
  unfold CSV_FILE_OUTPUT_FORMAT, str. simpl. rewrite app_nil_r. reflexivity.
Qed.

Lemma spaces_isspace k : forallb isspace (repeat " " k) = true.
Proof. induction k; simpl; auto. Qed.

Lemma ljust_fits s w : w <= length s -> ljust s w = s.
Proof.
  intros H. unfold ljust. replace (w - length s) with 0 by lia.
  apply app_nil_r.
Qed.

Lemma ljust_length s w : length (ljust s w) = Nat.max (length s) w.
Proof. unfold ljust. rewrite length_app, repeat_length. lia. Qed.

End FormatFacts.

(** C6.  The aligned form of an entry is
    [(<format>)[<timestamp>] {<level>} <tag>: <message>] with the level
    and the tag left-justified: the value first, then spaces up to the
    width; a value already as long as the width is not padded.  Level [I]
    at width 5 becomes [I] and four spaces. *)
Theorem C6_aligned_text :
  (forall e logLevelWidth tagWidth,
     to_spaced_string e logLevelWidth tagWidth
     = Some (str "(" ++ logFormat e ++ str ")[" ++ timestamp e ++ str "] {"
                 ++ ljust (logLevel e) logLevelWidth ++ str "} "
                 ++ ljust (tag e) tagWidth ++ str ": " ++ message e)) /\
  (forall s w, exists pad,
       ljust s w = s ++ pad /\ Forall (eq " ") pad
       /\ length (ljust s w) = Nat.max (length s) w) /\
  ljust (str "I") 5 = str "I    " /\
  length (ljust (str "I") 5) = 5.
Proof.
  split; [| split; [| split; reflexivity]].
  - intros e lw tw. unfold to_spaced_string. rewrite FormatFacts.format_LOG.
    unfold str. simpl. repeat (rewrite <- app_assoc; simpl). reflexivity.
  - intros s w. exists (repeat " " (w - length s)).
    split; [reflexivity |]. split; [| apply FormatFacts.ljust_length].
    apply Forall_forall. intros x Hx. symmetry. eapply repeat_spec. eassumption.
Qed.

(** C5.  The CSV form of an entry is timestamp, level, tag and message
    joined by commas, each of the four between double quotes exactly when
    it holds a comma and otherwise bare; the value itself is copied as it
    is, a double quote inside it included.  With tag [a,b] and message
    [hello], and no comma in the first two fields, only the tag is
    quoted. *)
Theorem C5_csv_quoting :
  (forall e, exists f1 f2 f3 f4,
       to_csv_string e = Some (f1 ++ str "," ++ f2 ++ str "," ++ f3 ++ str "," ++ f4)
       /\ quoted_iff_comma (timestamp e) f1
       /\ quoted_iff_comma (logLevel e) f2
       /\ quoted_iff_comma (tag e) f3
       /\ quoted_iff_comma (message e) f4) /\
  (forall raw fmt stamp level,
      ~ In "," stamp -> ~ In "," level ->
      to_csv_string (mkLogLine raw fmt stamp level (str "a,b") (str "hello"))
      = Some (stamp ++ str "," ++ level ++ str ","
                    ++ [DQUOTE] ++ str "a,b" ++ [DQUOTE] ++ str ",hello")).
Proof.
  assert (Q : forall v, quoted_iff_comma v
                (if contains "," v then [DQUOTE] ++ v ++ [DQUOTE] else v)).
  { intros v. unfold quoted_iff_comma.
    destruct (contains "," v) eqn:E.
    - apply LineFacts.contains_In in E. split; [reflexivity | tauto].
    - split; [| reflexivity]. intros H. apply LineFacts.contains_In in H. congruence. }
  split.
  - intros e. unfold to_csv_string. rewrite FormatFacts.format_CSV.
    eexists _, _, _, _.
    split; [| split; [apply Q | split; [apply Q | split; apply Q]]].
    unfold str. simpl. reflexivity.
  - intros raw fmt stamp level Hs Hl. unfold to_csv_string.
    rewrite FormatFacts.format_CSV. simpl.
    destruct (contains "," stamp) eqn:E1;
      [apply LineFacts.contains_In in E1; tauto |].
    destruct (contains "," level) eqn:E2;
      [apply LineFacts.contains_In in E2; tauto |].
    unfold str. simpl. repeat (rewrite <- app_assoc; simpl). reflexivity.
Qed.

Lemma C5_csv_quoting_witness :
  to_csv_string (mkLogLine [] (str "lmf1") (str "2020-01-01 00:00:00") (str "D")
                           (str "a,b") (str "hello"))
  = Some (str "2020-01-01 00:00:00" ++ str "," ++ str "D" ++ str ","
              ++ [DQUOTE] ++ str "a,b" ++ [DQUOTE] ++ str ",hello").
Proof.
  apply (proj2 C5_csv_quoting); vm_compute; intuition discriminate.
Defined.

Module RoundTripFacts.
Import PyStrFacts ParserFacts StripFacts.

Lemma ljust_same_iff s w : ljust s w = s <-> w <= length s.
Proof.
  split; [| apply FormatFacts.ljust_fits].
  intros E. apply (f_equal (@length ascii)) in E.
  rewrite FormatFacts.ljust_length in E. lia.
Qed.

(** Parsing the aligned form of the entry of a matched line. *)
Lemma aligned_reparsed line lw tw :
  re_match LOG_LINE_PATTERN line = true ->
  exists f t l g m,
    parse_log_line line = mkLogLine line f t l g m
    /\ to_spaced_string (parse_log_line line) lw tw
       = Some ("(" :: f ++ ")" :: "[" :: t ++ "]" :: " " :: "{" :: ljust l lw
                   ++ "}" :: " " :: ljust g tw ++ ":" :: " " :: m)
    /\ parse_log_line ("(" :: f ++ ")" :: "[" :: t ++ "]" :: " " :: "{" :: ljust l lw
                           ++ "}" :: " " :: ljust g tw ++ ":" :: " " :: m)
       = mkLogLine ("(" :: f ++ ")" :: "[" :: t ++ "]" :: " " :: "{" :: ljust l lw
                        ++ "}" :: " " :: ljust g tw ++ ":" :: " " :: m)
                   f t (ljust l lw) g m.
Proof.
  intros H.
  destruct (ParseFacts.parse_log_line_matched line H)
    as (d & t & l & g & r & P & _ & Hd & Ht & Hl & Hg).
  exists (str "lmf" ++ d), t, l, (strip (" " :: g)), (strip r).
  split; [exact P |]. split.
  { rewrite P. unfold to_spaced_string.
    cbn [logFormat timestamp logLevel tag message].
    apply FormatFacts.format_LOG. }
  assert (N1 : ~ In ")" d) by (eapply forallb_not_In; [eassumption | reflexivity]).
  assert (N2 : ~ In "[" d) by (eapply forallb_not_In; [eassumption | reflexivity]).
  assert (N3 : ~ In "]" t) by (eapply forallb_not_In; [eassumption | reflexivity]).
  assert (N4 : ~ In "}" l) by (eapply forallb_not_In; [eassumption | reflexivity]).
  assert (N5 : ~ In ":" g) by (eapply forallb_not_In; [eassumption | reflexivity]).
  assert (N6 : ~ In ":" (strip (" " :: g))).
  { intros Hin. apply strip_In in Hin. destruct Hin as [Hin | Hin];
      [discriminate | exact (N5 Hin)]. }
  assert (N7 : ~ In "}" (ljust l lw)).
  { unfold ljust. intros Hin. apply in_app_or in Hin.
    destruct Hin as [Hin | Hin]; [exact (N4 Hin) |].
    apply repeat_spec in Hin. discriminate. }
  erewrite (parse_log_line_pieces
              (str "lmf" ++ d) t (ljust l lw)
              (" " :: ljust (strip (" " :: g)) tw)
              (" " :: strip r)); try assumption; try reflexivity.
  - f_equal.
    + unfold ljust.
      apply (strip_padded (strip (" " :: g)) [" "]
               (repeat " " (tw - length (strip (" " :: g))))).
      * apply strip_clean.
      * reflexivity.
      * apply FormatFacts.spaces_isspace.
    + rewrite <- (app_nil_r (strip r)) at 1.
      apply (strip_padded (strip r) [" "] []);
        [apply strip_clean | reflexivity | reflexivity].
  - unfold str. not_in.
  - unfold str. not_in.
  - unfold ljust. intros Hin. cbn [In] in Hin. rewrite in_app_iff in Hin.
    destruct Hin as [Hin | [Hin | Hin]]; [discriminate | exact (N6 Hin) |].
    apply repeat_spec in Hin. discriminate.
Qed.

End RoundTripFacts.

(** C9 (as amended).  Take a line the matcher accepts, parse it, and
    write the entry back from its five fields with [to_spaced_string], for
    any two widths: what is written is
    [(<format>)[<timestamp>] {<level, padded>} <tag, padded>: <message>].
    Parsing that gives the same tag and message, whatever white space the
    message holds, and the same format and timestamp.  The level comes
    back as it was written, padded to the level width: it is the level of
    the first parse exactly when that width does not exceed its length,
    as with the plain format (width 0). *)
Theorem C9_parse_format_roundtrip line logLevelWidth tagWidth :
  re_match LOG_LINE_PATTERN line = true ->
  exists again,
    to_spaced_string (parse_log_line line) logLevelWidth tagWidth = Some again
    /\ again = str "(" ++ logFormat (parse_log_line line)
                  ++ str ")[" ++ timestamp (parse_log_line line)
                  ++ str "] {" ++ ljust (logLevel (parse_log_line line)) logLevelWidth
                  ++ str "} " ++ ljust (tag (parse_log_line line)) tagWidth
                  ++ str ": " ++ message (parse_log_line line)
    /\ tag (parse_log_line again) = tag (parse_log_line line)
    /\ message (parse_log_line again) = message (parse_log_line line)
    /\ logFormat (parse_log_line again) = logFormat (parse_log_line line)
    /\ timestamp (parse_log_line again) = timestamp (parse_log_line line)
    /\ logLevel (parse_log_line again)
       = ljust (logLevel (parse_log_line line)) logLevelWidth
    /\ (logLevel (parse_log_line again) = logLevel (parse_log_line line)
        <-> logLevelWidth <= length (logLevel (parse_log_line line))).
Proof.
  intros H.
  destruct (RoundTripFacts.aligned_reparsed line logLevelWidth tagWidth H)
    as (f & t & l & g & m & P & S & R).
  rewrite S, P. cbn [logFormat timestamp logLevel tag message].
  eexists. split; [reflexivity |]. rewrite R.
  cbn [logFormat timestamp logLevel tag message].
  split.
  { unfold str. cbn [String.list_ascii_of_string app].
    repeat (rewrite <- app_assoc; cbn [app]). reflexivity. }
  repeat split; try apply RoundTripFacts.ljust_same_iff.
Qed.

Lemma C9_parse_format_roundtrip_witness :
  exists again,
    to_spaced_string
      (parse_log_line (str "(lmf1)[2020-01-01 00:00:00] {W}   my tag :  a   b  ")) 3 9
    = Some again
    /\ again = str "(lmf1)[2020-01-01 00:00:00] {W  } my tag   : a   b"
    /\ tag (parse_log_line again) = str "my tag"
    /\ message (parse_log_line again) = str "a   b"
    /\ logLevel (parse_log_line again) = str "W  ".
Proof.
  destruct (C9_parse_format_roundtrip
              (str "(lmf1)[2020-01-01 00:00:00] {W}   my tag :  a   b  ") 3 9)
    as (again & E & F & H1 & H2 & _ & _ & H3 & _).
  - vm_compute. reflexivity.
  - exists again. rewrite H1, H2, H3. split; [exact E |].
    split; [rewrite F; vm_compute; reflexivity |].
    repeat split; vm_compute; reflexivity.
Defined.

(** C9 as the specification words it fails for the level: with the
    widths 5 and 3 that a run over levels [DEBUG] and [I] passes to
    [to_spaced_string], the entry of level [I] is written with
    [{I    }], and parsing that gives the level [I] followed by four
    spaces. *)
Lemma C9_counterexample :
  ~ (forall line logLevelWidth tagWidth again,
        re_match LOG_LINE_PATTERN line = true ->
        to_spaced_string (parse_log_line line) logLevelWidth tagWidth = Some again ->
        logLevel (parse_log_line again) = logLevel (parse_log_line line)
        /\ tag (parse_log_line again) = tag (parse_log_line line)
        /\ message (parse_log_line again) = message (parse_log_line line)).
Proof.
  intros H.
  destruct (H (str "(lmf1)[2020-01-01 00:00:01] {I} io: ok") 5 3
              (str "(lmf1)[2020-01-01 00:00:01] {I    } io : ok"))
    as [E _].
  - vm_compute. reflexivity.
  - vm_compute. reflexivity.
  - vm_compute in E. discriminate.
Qed.

(** ** The parser on arbitrary input *)

Module TotalFacts.
Import PyStrFacts StripFacts.

Lemma substring_of_trans x y s :
  substring_of x y -> substring_of y s -> substring_of x s.
Proof.
  intros (a & b & ->) (c & d & ->). exists (c ++ a), (b ++ d).
  repeat rewrite <- app_assoc. reflexivity.
Qed.

Lemma slice_substring s a b : substring_of (slice s a b) s.
Proof.
  unfold slice. set (i := clamp s a). set (k := clamp s b - i).
  exists (firstn i s), (skipn k (skipn i s)).
  rewrite firstn_skipn, firstn_skipn. reflexivity.
Qed.

Lemma slice_from_substring s a : substring_of (slice_from s a) s.
Proof.
  unfold slice_from. exists (firstn (clamp s a) s), [].
  rewrite app_nil_r, firstn_skipn. reflexivity.
Qed.

Lemma strip_substring s : substring_of (strip s) s.
Proof. destruct (strip_inside s) as (a & b & E). exists a, b. assumption. Qed.

Lemma find_from_none s c start : ~ In c s -> find_from s c start = (-1)%Z.
Proof.
  intros Hn. unfold find_from. rewrite index_of_absent; [reflexivity |].
  intros Hin. apply Hn. rewrite <- (firstn_skipn (clamp s start) s).
  apply in_or_app. right. assumption.
Qed.

Lemma clamp_zero s : clamp s 0 = 0.
Proof.
  unfold clamp, len. cbv zeta. change (0 <? 0)%Z with false. cbv iota.
  destruct (Z.ltb_spec (Z.of_nat (length s)) 0); [lia | reflexivity].
Qed.

Lemma clamp_minus_one s : clamp s (-1) = length s - 1.
Proof.
  unfold clamp, len. cbv zeta. change (-1 <? 0)%Z with true. cbv iota.
  destruct (Z.ltb_spec (-1 + Z.of_nat (length s)) 0); [lia |].
  destruct (Z.ltb_spec (Z.of_nat (length s)) (-1 + Z.of_nat (length s))); lia.
Qed.

Lemma slice_drop_last s : slice s 0 (-1) = removelast s.
Proof.
  unfold slice. rewrite clamp_zero, clamp_minus_one, Nat.sub_0_r. simpl skipn.
  rewrite removelast_firstn_len. f_equal. lia.
Qed.

Lemma slice_from_zero s : slice_from s 0 = s.
Proof. unfold slice_from. rewrite clamp_zero. reflexivity. Qed.

End TotalFacts.

(** C10.  [parse_log_line] gives an entry for every string: the raw value
    is the string itself and each of the five fields is a run of
    consecutive characters of it.  When the string holds none of the
    delimiters every search answers -1, and the entry is still built: the
    first four fields are the string without its last character (the tag
    stripped), the message is the string stripped. *)
Theorem C10_parser_total line :
  rawValue (parse_log_line line) = line
  /\ substring_of (logFormat (parse_log_line line)) line
  /\ substring_of (timestamp (parse_log_line line)) line
  /\ substring_of (logLevel (parse_log_line line)) line
  /\ substring_of (tag (parse_log_line line)) line
  /\ substring_of (message (parse_log_line line)) line
  /\ ((forall c, In c delimiters -> ~ In c line) ->
      (forall c start, In c delimiters -> find_from line c start = (-1)%Z)
      /\ slice line 0 (-1) = removelast line
      /\ parse_log_line line
         = mkLogLine line (slice line 0 (-1)) (slice line 0 (-1)) (slice line 0 (-1))
                     (strip (slice line 0 (-1))) (strip line)).
Proof.
  split; [reflexivity |].
  split; [apply TotalFacts.slice_substring |].
  split; [apply TotalFacts.slice_substring |].
  split; [apply TotalFacts.slice_substring |].
  split.
  { eapply TotalFacts.substring_of_trans;
      [apply TotalFacts.strip_substring | apply TotalFacts.slice_substring]. }
  split.
  { eapply TotalFacts.substring_of_trans;
      [apply TotalFacts.strip_substring | apply TotalFacts.slice_from_substring]. }
  intros Hno.
  assert (F : forall c start, In c delimiters -> find_from line c start = (-1)%Z).
  { intros c start Hc. apply TotalFacts.find_from_none. apply Hno. assumption. }
  split; [exact F |]. split; [apply TotalFacts.slice_drop_last |].
  unfold parse_log_line, find.
  rewrite !F by (simpl; tauto). simpl (-1 + 1)%Z.
  rewrite TotalFacts.slice_from_zero. reflexivity.
Qed.

Lemma C10_parser_total_witness :
  parse_log_line (str "plain text")
  = mkLogLine (str "plain text") (str "plain tex") (str "plain tex") (str "plain tex")
              (str "plain tex") (str "plain text").
Proof.
  destruct (C10_parser_total (str "plain text")) as (_ & _ & _ & _ & _ & _ & H).
  destruct H as (_ & _ & E).
  - intros c Hc Hin. vm_compute in Hc, Hin.
    intuition (subst; discriminate).
  - rewrite E. vm_compute. reflexivity.
Defined.

(** ** Filtering and accumulation *)

Module FilterFacts.

Lemma str_eqb_eq s t : str_eqb s t = true <-> s = t.
Proof.
  revert t. induction s as [|a s IH]; destruct t as [|b t]; simpl;
    try (split; [discriminate | discriminate]); [tauto |].
  rewrite andb_true_iff, Ascii.eqb_eq, IH. split.
  - intros [-> ->]. reflexivity.
  - intros [= -> ->]. auto.
Qed.

Lemma str_eqb_neq s t : str_eqb s t = false <-> s <> t.
Proof.
  rewrite <- str_eqb_eq. destruct (str_eqb s t); split; congruence.
Qed.

Lemma str_in_In x l : str_in x l = true <-> In x l.
Proof.
  unfold str_in. rewrite existsb_exists. split.
  - intros (y & Hy & E). apply str_eqb_eq in E. subst. assumption.
  - intros H. exists x. split; [assumption | apply str_eqb_eq; reflexivity].
Qed.

Lemma matches_filters_true e lf tf :
  matches_filters e lf tf = true <->
  (forall l, lf = Some l -> l = logLevel e) /\
  (forall t, tf = Some t -> In (tag e) t).
Proof.
  unfold matches_filters. destruct lf as [l|], tf as [t|].
  - destruct (str_eqb l (logLevel e)) eqn:E1; simpl.
    + apply str_eqb_eq in E1. destruct (str_in (tag e) t) eqn:E2; simpl.
      * apply str_in_In in E2. split; [| reflexivity]. intros _.
        split; intros ? [= <-]; assumption.
      * split; [discriminate |]. intros [_ H].
        specialize (H t eq_refl). apply str_in_In in H. congruence.
    + apply str_eqb_neq in E1. split; [discriminate |]. intros [H _].
      specialize (H l eq_refl). contradiction.
  - destruct (str_eqb l (logLevel e)) eqn:E1; simpl.
    + apply str_eqb_eq in E1. split; [| reflexivity]. intros _.
      split; [intros ? [= <-]; assumption | discriminate].
    + apply str_eqb_neq in E1. split; [discriminate |]. intros [H _].
      specialize (H l eq_refl). contradiction.
  - simpl. destruct (str_in (tag e) t) eqn:E2; simpl.
    + apply str_in_In in E2. split; [| reflexivity]. intros _.
      split; [discriminate | intros ? [= <-]; assumption].
    + split; [discriminate |]. intros [_ H].
      specialize (H t eq_refl). apply str_in_In in H. congruence.
  - simpl. split; [| reflexivity]. intros _. split; discriminate.
Qed.

End FilterFacts.

(** C3.  An entry is rejected exactly when a level filter is given and
    differs from the entry's level, or a tag filter is given and the
    entry's tag is not one of its members; it is accepted exactly when both
    constraints, each only if given, hold.  Strings are compared as they
    are, so [d] does not pass a filter [D].  Filtering entries of levels
    [D], [I], [D] on level [D] keeps the first and the third, in that
    order. *)
Theorem C3_filter_evaluator :
  (forall e logLevel tagFilter,
      matches_filters e logLevel tagFilter = false <->
      (exists l, logLevel = Some l /\ l <> Log.logLevel e) \/
      (exists t, tagFilter = Some t /\ ~ In (tag e) t)) /\
  (forall e logLevel tagFilter,
      matches_filters e logLevel tagFilter = true <->
      (forall l, logLevel = Some l -> l = Log.logLevel e) /\
      (forall t, tagFilter = Some t -> In (tag e) t)) /\
  (forall raw fmt stamp tg msg,
      matches_filters (mkLogLine raw fmt stamp (str "d") tg msg) (Some (str "D")) None
      = false) /\
  (forall e1 e2 e3,
      Log.logLevel e1 = str "D" -> Log.logLevel e2 = str "I" ->
      Log.logLevel e3 = str "D" ->
      filter (fun e => matches_filters e (Some (str "D")) None) [e1; e2; e3]
      = [e1; e3]).
Proof.
  split; [| split; [exact FilterFacts.matches_filters_true | split]].
  - intros e lf tf. split.
    + intros H. unfold matches_filters in H.
      destruct lf as [l|].
      * destruct (str_eqb l (logLevel e)) eqn:E1; simpl in H.
        -- destruct tf as [t|]; [| discriminate].
           destruct (str_in (tag e) t) eqn:E2; simpl in H; [discriminate |].
           right. exists t. split; [reflexivity |].
           intros Hin. apply FilterFacts.str_in_In in Hin. congruence.
        -- left. exists l. split; [reflexivity |].
           apply FilterFacts.str_eqb_neq. assumption.
      * destruct tf as [t|]; [| discriminate].
        destruct (str_in (tag e) t) eqn:E2; simpl in H; [discriminate |].
        right. exists t. split; [reflexivity |].
        intros Hin. apply FilterFacts.str_in_In in Hin. congruence.
    + intros H. destruct (matches_filters e lf tf) eqn:E; [| reflexivity].
      apply FilterFacts.matches_filters_true in E. destruct E as [E1 E2].
      destruct H as [(l & -> & Hl) | (t & -> & Ht)].
      * exfalso. apply Hl. apply E1. reflexivity.
      * exfalso. apply Ht. apply E2. reflexivity.
  - reflexivity.
  - intros e1 e2 e3 H1 H2 H3. unfold matches_filters. simpl.
    rewrite H1, H2, H3. reflexivity.
Qed.

Lemma C3_filter_evaluator_witness :
  filter (fun e => matches_filters e (Some (str "D")) None)
         [ parse_log_line (str "(lmf1)[2020-01-01 00:00:00] {D} net: one");
           parse_log_line (str "(lmf1)[2020-01-01 00:00:01] {I} net: two");
           parse_log_line (str "(lmf1)[2020-01-01 00:00:02] {D} io: three") ]
  = [ parse_log_line (str "(lmf1)[2020-01-01 00:00:00] {D} net: one");
      parse_log_line (str "(lmf1)[2020-01-01 00:00:02] {D} io: three") ].
Proof.
  apply (proj2 (proj2 (proj2 C3_filter_evaluator))); vm_compute; reflexivity.
Defined.


Arguments parse_log_line : simpl never.
Arguments re_match : simpl never.
Arguments accepted : simpl never.

Module ScanFacts.

Lemma scan_line_spec lf tf logLines g line :
  scan_line lf tf (logLines, g) line
  = if accepted lf tf line
    then (logLines ++ [parse_log_line line],
          {| LOG_LEVEL_WIDTH :=
               Nat.max (LOG_LEVEL_WIDTH g) (length (logLevel (parse_log_line line)));
             TAG_WIDTH :=
               Nat.max (TAG_WIDTH g) (length (tag (parse_log_line line))) |})
    else (logLines, g).
Proof.
  unfold scan_line, accepted.
  generalize (parse_log_line line). intros e.
  destruct (re_match LOG_LINE_PATTERN line); [| reflexivity].
  destruct (matches_filters e lf tf); [| reflexivity].
  cbn [andb]. cbv zeta. f_equal. f_equal.
  - destruct (Nat.ltb_spec (LOG_LEVEL_WIDTH g) (length (logLevel e))); lia.
  - destruct (Nat.ltb_spec (TAG_WIDTH g) (length (tag e))); lia.
Qed.

Lemma widest_cons f e es :
  widest f (e :: es) = Nat.max (length (f e)) (widest f es).
Proof. reflexivity. Qed.

Lemma widest_app f es1 es2 :
  widest f (es1 ++ es2) = Nat.max (widest f es1) (widest f es2).
Proof. unfold widest. rewrite map_app. apply list_max_app. Qed.

Lemma grow_nil g : grow g [] = g.
Proof. destruct g. unfold grow, widest. simpl. rewrite !Nat.max_0_r. reflexivity. Qed.

Lemma grow_app g es1 es2 : grow (grow g es1) es2 = grow g (es1 ++ es2).
Proof.
  unfold grow. simpl. rewrite !widest_app. f_equal; lia.
Qed.

Lemma scan_fold_spec lf tf input : forall logLines g,
  fold_left (scan_line lf tf) input (logLines, g)
  = (logLines ++ map parse_log_line (filter (accepted lf tf) input),
     grow g (map parse_log_line (filter (accepted lf tf) input))).
Proof.
  induction input as [|line input IH]; intros logLines g.
  - cbn [fold_left filter map]. rewrite app_nil_r, grow_nil. reflexivity.
  - cbn [fold_left filter]. rewrite scan_line_spec.
    destruct (accepted lf tf line); [| apply IH].
    rewrite IH. cbn [map]. rewrite <- app_assoc. cbn [app]. f_equal.
    unfold grow. cbn [LOG_LEVEL_WIDTH TAG_WIDTH]. rewrite !widest_cons.
    f_equal; lia.
Qed.

Lemma read_paths_spec fs lf tf paths contents :
  readable fs paths contents ->
  forall logLines g,
    read_paths fs paths lf tf logLines g
    = Some (logLines
              ++ flat_map (fun input => map parse_log_line (filter (accepted lf tf) input))
                          contents,
            grow g (flat_map (fun input => map parse_log_line (filter (accepted lf tf) input))
                             contents)).
Proof.
  induction 1 as [|path input paths contents Hp _ IH]; simpl; intros logLines g.
  - rewrite app_nil_r, grow_nil. reflexivity.
  - unfold read_through_input_file. rewrite Hp, scan_fold_spec. simpl.
    rewrite IH, grow_app, <- app_assoc. reflexivity.
Qed.

Lemma flat_map_filter_concat lf tf (contents : list (list pystr)) :
  flat_map (fun input => map parse_log_line (filter (accepted lf tf) input)) contents
  = map parse_log_line (filter (accepted lf tf) (concat contents)).
Proof.
  induction contents as [|input contents IH]; simpl; [reflexivity |].
  rewrite filter_app, map_app, IH. reflexivity.
Qed.

End ScanFacts.

(** C4.  Both counters start at zero.  Each line changes them at most
    once: an accepted line appends its entry and replaces each counter by
    the larger of the counter and the length of the entry's level,
    respectively tag; any other line leaves list and counters as they
    were.  So the counters never decrease, and when all files have been
    read they are the lengths of the longest level and of the longest tag
    among the accepted entries.  Levels [DEBUG], [I] with tags [net], [io]
    give 5 and 3. *)
Theorem C4_width_tracker :
  initial_widths = {| LOG_LEVEL_WIDTH := 0; TAG_WIDTH := 0 |} /\
  (forall logLevel tagFilter logLines g line,
      scan_line logLevel tagFilter (logLines, g) line
      = if accepted logLevel tagFilter line
        then (logLines ++ [parse_log_line line],
              {| LOG_LEVEL_WIDTH :=
                   Nat.max (LOG_LEVEL_WIDTH g)
                           (length (Log.logLevel (parse_log_line line)));
                 TAG_WIDTH :=
                   Nat.max (TAG_WIDTH g) (length (tag (parse_log_line line))) |})
        else (logLines, g)) /\
  (forall logLevel tagFilter acc line,
      LOG_LEVEL_WIDTH (snd acc)
      <= LOG_LEVEL_WIDTH (snd (scan_line logLevel tagFilter acc line))
      /\ TAG_WIDTH (snd acc)
         <= TAG_WIDTH (snd (scan_line logLevel tagFilter acc line))) /\
  (forall fs paths contents logLevel tagFilter,
      readable fs paths contents ->
      exists logLines g,
        read_paths fs paths logLevel tagFilter [] initial_widths = Some (logLines, g)
        /\ LOG_LEVEL_WIDTH g = widest Log.logLevel logLines
        /\ TAG_WIDTH g = widest tag logLines) /\
  (forall fs paths contents logLevel tagFilter logLines g,
      readable fs paths contents ->
      exists logLines' g',
        read_paths fs paths logLevel tagFilter logLines g = Some (logLines', g')
        /\ LOG_LEVEL_WIDTH g <= LOG_LEVEL_WIDTH g'
        /\ TAG_WIDTH g <= TAG_WIDTH g') /\
  (exists logLines,
      read_paths (fun _ => Some [ str "(lmf1)[2020-01-01 00:00:00] {DEBUG} net: up";
                                  str "(lmf1)[2020-01-01 00:00:01] {I} io: ok" ])
                 [str "log.txt"] None None [] initial_widths
      = Some (logLines, {| LOG_LEVEL_WIDTH := 5; TAG_WIDTH := 3 |})
      /\ map Log.logLevel logLines = [str "DEBUG"; str "I"]
      /\ map tag logLines = [str "net"; str "io"]).
Proof.
  split; [reflexivity |].
  split; [exact ScanFacts.scan_line_spec |].
  split; [| split; [| split]].
  - intros lf tf [logLines g] line. rewrite ScanFacts.scan_line_spec.
    destruct (accepted lf tf line); cbn [snd LOG_LEVEL_WIDTH TAG_WIDTH]; lia.
  - intros fs paths contents lf tf Hr.
    rewrite (ScanFacts.read_paths_spec fs lf tf paths contents Hr).
    do 2 eexists. split; [reflexivity |].
    unfold grow, initial_widths. cbn [LOG_LEVEL_WIDTH TAG_WIDTH app].
    split; apply Nat.max_0_l.
  - intros fs paths contents lf tf logLines g Hr.
    rewrite (ScanFacts.read_paths_spec fs lf tf paths contents Hr).
    do 2 eexists. split; [reflexivity |].
    unfold grow. cbn [LOG_LEVEL_WIDTH TAG_WIDTH]. split; lia.
  - eexists. split; [vm_compute; reflexivity |]. split; reflexivity.
Qed.

Lemma C4_width_tracker_witness :
  exists logLines g,
    read_paths (fun path => if str_eqb path (str "a.txt")
                            then Some [ str "(lmf1)[2020-01-01 00:00:00] {WARN} radio: x";
                                        str "not a log line" ]
                            else Some [ str "(lmf2)[2020-01-01 00:00:01] {E} gps: y" ])
               [str "a.txt"; str "b.txt"] None None [] initial_widths
    = Some (logLines, g)
    /\ LOG_LEVEL_WIDTH g = widest logLevel logLines
    /\ TAG_WIDTH g = widest tag logLines.
Proof.
  apply (proj1 (proj2 (proj2 (proj2 C4_width_tracker))))
    with (contents := [ [ str "(lmf1)[2020-01-01 00:00:00] {WARN} radio: x";
                          str "not a log line" ];
                        [ str "(lmf2)[2020-01-01 00:00:01] {E} gps: y" ] ]).
  repeat constructor.
Defined.

(** C8.  When every path can be opened, the reading loop returns what it
    was given followed by the accepted entries of the first file in line
    order, then those of the second file, and so on: the parsed lines of
    all files, taken in that order, that pass matcher and filter.  Every
    new entry is the parse of a line the matcher accepted and the filter
    passed, so a dropped line is nowhere in the result; what was
    accumulated stays in front, unchanged. *)
Theorem C8_file_aggregator fs paths contents logLevel tagFilter logLines g :
  readable fs paths contents ->
  exists found g',
    read_paths fs paths logLevel tagFilter logLines g = Some (logLines ++ found, g')
    /\ found = flat_map (fun input =>
                           map parse_log_line (filter (accepted logLevel tagFilter) input))
                        contents
    /\ found = map parse_log_line
                   (filter (accepted logLevel tagFilter) (concat contents))
    /\ forall e, In e found ->
                 exists line,
                   In line (concat contents) /\ e = parse_log_line line
                   /\ re_match LOG_LINE_PATTERN line = true
                   /\ matches_filters e logLevel tagFilter = true.
Proof.
  intros Hr. do 2 eexists.
  split; [apply (ScanFacts.read_paths_spec fs logLevel tagFilter paths contents Hr) |].
  split; [reflexivity |].
  split; [apply ScanFacts.flat_map_filter_concat |].
  intros e He. rewrite ScanFacts.flat_map_filter_concat in He.
  apply in_map_iff in He. destruct He as (line & <- & Hl).
  apply filter_In in Hl. destruct Hl as [Hin Ha].
  unfold accepted in Ha. apply andb_true_iff in Ha. destruct Ha as [Hm Hf].
  exists line. auto.
Qed.

Lemma C8_file_aggregator_witness :
  exists g',
    read_paths (fun path => if str_eqb path (str "a.txt")
                            then Some [ str "(lmf1)[2020-01-01 00:00:00] {WARN} radio: x";
                                        str "not a log line" ]
                            else Some [ str "(lmf2)[2020-01-01 00:00:01] {E} gps: y" ])
               [str "b.txt"; str "a.txt"] None None [] initial_widths
    = Some ([ parse_log_line (str "(lmf2)[2020-01-01 00:00:01] {E} gps: y");
              parse_log_line (str "(lmf1)[2020-01-01 00:00:00] {WARN} radio: x") ], g').
Proof.
  destruct (C8_file_aggregator
              (fun path => if str_eqb path (str "a.txt")
                           then Some [ str "(lmf1)[2020-01-01 00:00:00] {WARN} radio: x";
                                       str "not a log line" ]
                           else Some [ str "(lmf2)[2020-01-01 00:00:01] {E} gps: y" ])
              [str "b.txt"; str "a.txt"]
              [ [ str "(lmf2)[2020-01-01 00:00:01] {E} gps: y" ];
                [ str "(lmf1)[2020-01-01 00:00:00] {WARN} radio: x"; str "not a log line" ] ]
              None None [] initial_widths)
    as (found & g' & E & F & _).
  - repeat constructor.
  - exists g'. rewrite E, F. vm_compute. reflexivity.
Defined.

(** ** The extension of a file name *)

Module PathFacts.
Import PyStrFacts.

Lemma rfind_last s c a b :
  s = a ++ c :: b -> ~ In c b -> rfind s c = Z.of_nat (length a).
Proof.
  intros -> Hn. unfold rfind, len.
  replace (rev (a ++ c :: b)) with (rev b ++ c :: rev a)
    by (rewrite rev_app_distr; simpl; rewrite <- app_assoc; reflexivity).
  rewrite index_of_first by (rewrite <- in_rev; assumption).
  rewrite length_rev, length_app. simpl length. lia.
Qed.

Lemma rfind_none s c : ~ In c s -> rfind s c = (-1)%Z.
Proof.
  intros Hn. unfold rfind. rewrite index_of_absent; [reflexivity |].
  rewrite <- in_rev. assumption.
Qed.

Lemma rfind_cases s c :
  (rfind s c = (-1)%Z /\ ~ In c s) \/
  (exists a b, s = a ++ c :: b /\ ~ In c b /\ rfind s c = Z.of_nat (length a)).
Proof.
  destruct (in_dec ascii_dec c s) as [Hin | Hn].
  - right. apply in_rev in Hin.
    destruct (index_of_present _ _ Hin) as (i & Ei).
    destruct (index_of_split _ _ _ Ei) as (p & q & E & Hp & _).
    exists (rev q), (rev p).
    assert (Es : s = rev q ++ c :: rev p).
    { rewrite <- (rev_involutive s), E, rev_app_distr. simpl.
      rewrite <- app_assoc. reflexivity. }
    assert (Hn : ~ In c (rev p)) by (rewrite <- in_rev; assumption).
    split; [assumption |]. split; [assumption |].
    apply rfind_last with (b := rev p); assumption.
  - left. split; [apply rfind_none |]; assumption.
Qed.

Lemma app_overlap {A} (x y : A) : forall a' a b b',
    a ++ x :: b = a' ++ y :: b' -> length a' < length a ->
    exists m, a = a' ++ y :: m /\ b' = m ++ x :: b.
Proof.
  induction a' as [|z a' IH]; intros a b b' E Hl.
  - destruct a as [|w a]; [simpl in Hl; lia |].
    simpl in E. injection E as -> E. exists a. auto.
  - destruct a as [|w a]; [simpl in Hl; lia |].
    simpl in E. injection E as -> E. simpl in Hl.
    destruct (IH a b b' E) as (m & -> & ->); [lia |].
    exists m. auto.
Qed.

Lemma not_dot_exists base :
  existsb (fun c => negb (Ascii.eqb c ".")) base = true <->
  exists c, In c base /\ c <> ".".
Proof.
  rewrite existsb_exists. split; intros (c & Hc & H); exists c; split; try assumption.
  - intros ->. discriminate.
  - apply negb_true_iff. apply Ascii.eqb_neq. assumption.
Qed.

(** The test [os.path.splitext(name)[1][1:] == "csv"] of
    [output_log_line] holds exactly for the names with the extension
    [.csv]. *)
Lemma csv_test_iff n :
  str_eqb (slice_from (snd (splitext n)) 1) (str "csv") = true <-> csv_name n.
Proof.
  split.
  - unfold splitext. intros H.
    destruct (rfind n "/" <? rfind n ".")%Z eqn:Elt; [| discriminate H].
    destruct (existsb (fun c => negb (Ascii.eqb c "."))
                      (slice n (rfind n "/" + 1) (rfind n "."))) eqn:Eex;
      [| discriminate H].
    apply Z.ltb_lt in Elt. cbn [snd] in H.
    destruct (rfind_cases n ".") as [[Ed _] | (a & b & En & Hb & Ed)].
    { destruct (rfind_cases n "/") as [[Es _] | (a' & b' & _ & _ & Es)]; lia. }
    rewrite Ed in *.
    rewrite (slice_from_at n a ("." :: b)) in H by (assumption || reflexivity).
    rewrite (slice_from_at ("." :: b) ["."] b) in H by reflexivity.
    apply FilterFacts.str_eqb_eq in H. subst b.
    destruct (rfind_cases n "/") as [[Es Hs] | (a' & b' & En' & Hb' & Es)];
      rewrite Es in *.
    + rewrite (slice_at n [] a (str ".csv")) in Eex by (assumption || reflexivity).
      exists [], a. split; [assumption |]. split; [left; reflexivity |].
      split; [| apply not_dot_exists; assumption].
      intros Hin. apply Hs. rewrite En. apply in_or_app. left. assumption.
    + assert (Hl : length a' < length a) by lia.
      rewrite En in En'.
      destruct (app_overlap _ _ _ _ _ _ En' Hl) as (m & -> & ->).
      rewrite (slice_at n (a' ++ ["/"]) m (str ".csv")) in Eex.
      * exists (a' ++ ["/"]), m. split.
        { rewrite En. repeat rewrite <- app_assoc. reflexivity. }
        split; [right; exists a'; reflexivity |].
        split; [| apply not_dot_exists; assumption].
        intros Hin. apply Hb'. apply in_or_app. left. assumption.
      * rewrite En. repeat rewrite <- app_assoc. reflexivity.
      * rewrite length_app. simpl length. lia.
      * rewrite !length_app. simpl length. lia.
  - intros (dir & base & En & Hdir & Hbase & Hex).
    apply not_dot_exists in Hex. unfold splitext.
    assert (Ed : rfind n "." = Z.of_nat (length (dir ++ base))).
    { apply rfind_last with (b := str "csv").
      - rewrite En, <- app_assoc. reflexivity.
      - unfold str. simpl. intuition discriminate. }
    assert (Es : (rfind n "/" + 1)%Z = Z.of_nat (length dir)).
    { destruct Hdir as [-> | (d & ->)].
      - rewrite rfind_none; [reflexivity |].
        rewrite En. simpl. intros Hin. apply in_app_or in Hin.
        destruct Hin as [Hin | Hin]; [exact (Hbase Hin) |].
        unfold str in Hin. simpl in Hin. intuition discriminate.
      - rewrite (rfind_last n "/" d (base ++ str ".csv")).
        + rewrite length_app. simpl length. lia.
        + rewrite En, <- app_assoc. reflexivity.
        + intros Hin. apply in_app_or in Hin.
          destruct Hin as [Hin | Hin]; [exact (Hbase Hin) |].
          unfold str in Hin. simpl in Hin. intuition discriminate. }
    rewrite Es, Ed.
    replace (rfind n "/" <? Z.of_nat (length (dir ++ base)))%Z with true
      by (symmetry; apply Z.ltb_lt; rewrite length_app; lia).
    rewrite (slice_at n dir base (str ".csv"))
      by (assumption || reflexivity || (rewrite length_app; lia)).
    rewrite Hex. cbn [snd].
    rewrite (slice_from_at n (dir ++ base) (str ".csv"))
      by ((rewrite En, <- app_assoc; reflexivity) || reflexivity).
    reflexivity.
Qed.

End PathFacts.

(** C7 (as amended).  With an output file whose name has the extension
    [.csv] (the name is [dir ++ base ++ ".csv"], [base] being the last
    path component up to its last dot and holding a character that is not
    a dot) the entry is written as CSV; with any other output file, and on
    standard output, it is written aligned when the flag is set and
    otherwise as its raw line stripped, which for a line the matcher
    accepted removes the white space at its end and nothing else.  What is
    written is always followed by one line feed.  The line
    [(lmf1)[2020-01-01 00:00:00] {DEBUG} net: connected] read with no
    filter comes out unchanged in raw mode, and as
    [2020-01-01 00:00:00,DEBUG,net,connected] with [-o out.csv]. *)
Theorem C7_output_mode :
  (forall e f out spaceColumns g,
      csv_name (name f) ->
      exists text,
        to_csv_string e = Some text
        /\ output_log_line e {| outputFile := Some f; stdout := out |} spaceColumns g
           = Some {| outputFile :=
                       Some {| name := name f; written := written f ++ text ++ [LF] |};
                     stdout := out |}) /\
  (forall e f out g,
      ~ csv_name (name f) ->
      exists text,
        to_spaced_string e (LOG_LEVEL_WIDTH g) (TAG_WIDTH g) = Some text
        /\ output_log_line e {| outputFile := Some f; stdout := out |} true g
           = Some {| outputFile :=
                       Some {| name := name f; written := written f ++ text ++ [LF] |};
                     stdout := out |}) /\
  (forall e f out g,
      ~ csv_name (name f) ->
      output_log_line e {| outputFile := Some f; stdout := out |} false g
      = Some {| outputFile :=
                  Some {| name := name f;
                          written := written f ++ strip (rawValue e) ++ [LF] |};
                stdout := out |}) /\
  (forall e out g,
      exists text,
        to_spaced_string e (LOG_LEVEL_WIDTH g) (TAG_WIDTH g) = Some text
        /\ output_log_line e {| outputFile := None; stdout := out |} true g
           = Some {| outputFile := None; stdout := out ++ text ++ [LF] |}) /\
  (forall e out g,
      output_log_line e {| outputFile := None; stdout := out |} false g
      = Some {| outputFile := None; stdout := out ++ strip (rawValue e) ++ [LF] |}) /\
  (forall line,
      re_match LOG_LINE_PATTERN line = true ->
      strip (rawValue (parse_log_line line)) = rstrip line) /\
  main (fun _ => Some [str "(lmf1)[2020-01-01 00:00:00] {DEBUG} net: connected" ++ [LF]])
       [str "log.txt"] None None None false
  = Some {| outputFile := None;
            stdout := str "(lmf1)[2020-01-01 00:00:00] {DEBUG} net: connected" ++ [LF] |} /\
  main (fun _ => Some [str "(lmf1)[2020-01-01 00:00:00] {DEBUG} net: connected" ++ [LF]])
       [str "log.txt"] (Some (str "out.csv")) None None false
  = Some {| outputFile :=
              Some {| name := str "out.csv";
                      written := str "2020-01-01 00:00:00,DEBUG,net,connected" ++ [LF] |};
            stdout := [] |}.
Proof.
  repeat match goal with |- _ /\ _ => split end.
  - intros e f out sc g Hc. apply PathFacts.csv_test_iff in Hc.
    unfold output_log_line. cbn [outputFile stdout]. rewrite Hc.
    unfold to_csv_string. rewrite FormatFacts.format_CSV.
    eexists. split; [reflexivity |]. unfold write. simpl.
    rewrite <- app_assoc. reflexivity.
  - intros e f out g Hc.
    assert (Ht : str_eqb (slice_from (snd (splitext (name f))) 1) (str "csv") = false).
    { destruct (str_eqb (slice_from (snd (splitext (name f))) 1) (str "csv")) eqn:E;
        [| reflexivity].
      apply PathFacts.csv_test_iff in E. contradiction. }
    unfold output_log_line. cbn [outputFile stdout]. rewrite Ht.
    unfold to_spaced_string. rewrite FormatFacts.format_LOG.
    eexists. split; [reflexivity |]. unfold write. simpl.
    rewrite <- app_assoc. reflexivity.
  - intros e f out g Hc.
    assert (Ht : str_eqb (slice_from (snd (splitext (name f))) 1) (str "csv") = false).
    { destruct (str_eqb (slice_from (snd (splitext (name f))) 1) (str "csv")) eqn:E;
        [| reflexivity].
      apply PathFacts.csv_test_iff in E. contradiction. }
    unfold output_log_line. cbn [outputFile stdout]. rewrite Ht.
    unfold write, __str__. simpl. rewrite <- app_assoc. reflexivity.
  - intros e out g. unfold output_log_line. cbn [outputFile stdout].
    unfold to_spaced_string. rewrite FormatFacts.format_LOG.
    eexists. split; reflexivity.
  - intros e out g. reflexivity.
  - intros line H. apply PatternFacts.LOG_LINE_PATTERN_shape in H.
    destruct H as (d & t & l & g & r & e & -> & _).
    unfold strip. reflexivity.
  - vm_compute. reflexivity.
  - vm_compute. reflexivity.
Qed.

Lemma C7_output_mode_witness :
  exists text,
    to_csv_string (parse_log_line (str "(lmf1)[2020-01-01 00:00:00] {I} io: a,b")) = Some text
    /\ output_log_line (parse_log_line (str "(lmf1)[2020-01-01 00:00:00] {I} io: a,b"))
                       {| outputFile := Some (open_w (str "logs/run.1.csv")); stdout := [] |}
                       true initial_widths
       = Some {| outputFile :=
                   Some {| name := str "logs/run.1.csv"; written := [] ++ text ++ [LF] |};
                 stdout := [] |}.
Proof.
  apply (proj1 C7_output_mode
               (parse_log_line (str "(lmf1)[2020-01-01 00:00:00] {I} io: a,b"))
               (open_w (str "logs/run.1.csv")) [] true initial_widths).
  exists (str "logs/"), (str "run.1").
  split; [reflexivity |]. split; [right; exists (str "logs"); reflexivity |].
  split; [vm_compute; intuition discriminate |].
  exists "r". split; [left; reflexivity | discriminate].
Defined.

(** C7 as the specification words it fails: the name [.csv] ends in
    [.csv], yet [os.path.splitext] finds no extension in it (only a dot
    precedes the last dot), and the entry is written raw, not as CSV. *)
Lemma C7_counterexample :
  ~ (forall n, ends_with (str ".csv") n ->
       main (fun _ => Some [str "(lmf1)[2020-01-01 00:00:00] {DEBUG} net: connected" ++ [LF]])
            [str "log.txt"] (Some n) None None false
       = Some {| outputFile :=
                   Some {| name := n;
                           written := str "2020-01-01 00:00:00,DEBUG,net,connected" ++ [LF] |};
                 stdout := [] |}).
Proof.
  intros H. specialize (H (str ".csv")).
  assert (E : ends_with (str ".csv") (str ".csv")) by (exists []; reflexivity).
  apply H in E. vm_compute in E. discriminate.
Qed.

(** * Further properties of the program *)

(** ** Splitting the tag option *)

Module SplitFacts.

Lemma split_nonempty s c : split s c <> [].
Proof.
  destruct s as [|a s]; simpl; [discriminate |].
  destruct (Ascii.eqb a c); [discriminate |].
  destruct (split s c); discriminate.
Qed.

Lemma split_at a b c :
  ~ In c a -> split (a ++ c :: b) c = a :: split b c.
Proof.
  induction a as [|x a IH]; simpl; intros Hn.
  - rewrite Ascii.eqb_refl. reflexivity.
  - destruct (Ascii.eqb x c) eqn:E.
    + apply Ascii.eqb_eq in E. exfalso. apply Hn. left. assumption.
    + rewrite IH; [reflexivity | intros Hin; apply Hn; right; assumption].
Qed.

Lemma split_no_sep s c : ~ In c s -> split s c = [s].
Proof.
  induction s as [|x s IH]; simpl; intros Hn; [reflexivity |].
  destruct (Ascii.eqb x c) eqn:E.
  - apply Ascii.eqb_eq in E. exfalso. apply Hn. left. assumption.
  - rewrite IH; [reflexivity | intros Hin; apply Hn; right; assumption].
Qed.

Lemma split_pieces s c : forall piece, In piece (split s c) -> ~ In c piece.
Proof.
  induction s as [|x s IH]; simpl.
  - intros piece [<- | []]. intros [].
  - destruct (Ascii.eqb x c) eqn:E.
    + intros piece [<- | H]; [intros [] | apply IH; assumption].
    + destruct (split s c) as [|h t] eqn:Es.
      * intros piece [<- | []]. intros [-> | []].
        rewrite Ascii.eqb_refl in E. discriminate.
      * intros piece [<- | H].
        -- intros [-> | Hin]; [rewrite Ascii.eqb_refl in E; discriminate |].
           apply (IH h); [left; reflexivity | assumption].
        -- apply IH. right. assumption.
Qed.

Lemma join_split s c : join c (split s c) = s.
Proof.
  induction s as [|x s IH]; simpl; [reflexivity |].
  destruct (Ascii.eqb x c) eqn:E.
  - apply Ascii.eqb_eq in E. subst x.
    destruct (split s c) as [|h t] eqn:Es; [exfalso; exact (split_nonempty s c Es) |].
    cbn [join app]. cbn [join] in IH. rewrite IH. reflexivity.
  - destruct (split s c) as [|h t] eqn:Es; [exfalso; exact (split_nonempty s c Es) |].
    destruct t as [|q r].
    + cbn [join] in *. rewrite IH. reflexivity.
    + cbn [join app] in *. rewrite IH. reflexivity.
Qed.

Lemma split_length s c : length (split s c) = S (count_occ ascii_dec s c).
Proof.
  induction s as [|x s IH]; simpl; [reflexivity |].
  destruct (Ascii.eqb x c) eqn:E.
  - apply Ascii.eqb_eq in E. subst x.
    destruct (ascii_dec c c); [| congruence]. simpl. rewrite IH. reflexivity.
  - apply Ascii.eqb_neq in E. destruct (ascii_dec x c); [congruence |].
    destruct (split s c) as [|h t] eqn:Es; [exfalso; exact (split_nonempty s c Es) |].
    simpl in *. assumption.
Qed.

End SplitFacts.

(** X1.  [split] loses nothing and cuts at every separator: joining the
    pieces with the separator gives the string back, no piece holds the
    separator, and there is one piece more than there are separators, so
    the list is never empty. *)
Theorem X1_split_laws s c :
  join c (split s c) = s
  /\ (forall piece, In piece (split s c) -> ~ In c piece)
  /\ length (split s c) = S (count_occ ascii_dec s c)
  /\ split s c <> [].
Proof.
  split; [apply SplitFacts.join_split |].
  split; [apply SplitFacts.split_pieces |].
  split; [apply SplitFacts.split_length | apply SplitFacts.split_nonempty].
Qed.

(** ** The options *)

Module CliFacts.

Lemma first_invalid_at isfile before path after :
  Forall (fun p => isfile p = true) before -> isfile path = false ->
  Cli.first_invalid isfile (before ++ path :: after) = Some path.
Proof.
  induction 1 as [|p before Hp _ IH]; simpl; intros Hf.
  - rewrite Hf. reflexivity.
  - rewrite Hp. simpl. auto.
Qed.

Lemma first_invalid_none isfile paths :
  Forall (fun p => isfile p = true) paths -> Cli.first_invalid isfile paths = None.
Proof.
  induction 1 as [|p paths Hp _ IH]; simpl; [reflexivity |].
  rewrite Hp. simpl. assumption.
Qed.

Lemma option_step_help v o a :
  Cli.option_step v (o, a) = None <-> o = str "-h".
Proof.
  unfold Cli.option_step. split.
  - repeat match goal with
           | |- context [str_eqb o ?x] => destruct (str_eqb o x) eqn:?; try discriminate
           end.
    intros _. apply FilterFacts.str_eqb_eq. assumption.
  - intros ->. reflexivity.
Qed.

Lemma option_loop_help optlist : forall v,
  Cli.option_loop optlist v = None <-> Cli.has_option (str "-h") optlist = true.
Proof.
  induction optlist as [|[o a] rest IH]; intros v.
  - simpl. split; discriminate.
  - cbn [Cli.option_loop Cli.has_option existsb fst].
    destruct (Cli.option_step v (o, a)) as [v'|] eqn:E.
    + rewrite IH. unfold Cli.has_option.
      destruct (str_eqb o (str "-h")) eqn:Eh; [| reflexivity].
      apply FilterFacts.str_eqb_eq in Eh.
      apply (option_step_help v o a) in Eh. congruence.
    + apply option_step_help in E. subst o. split; reflexivity.
Qed.

(** The locals after the loop, from any starting values. *)
Lemma option_loop_resolved optlist : forall v,
  Cli.has_option (str "-h") optlist = false ->
  Cli.option_loop optlist v
  = Some {| Cli.outputFile :=
              match Cli.last_arg (str "-o") optlist with
              | Some a => Some a
              | None => Cli.outputFile v
              end;
            Cli.tagFilter :=
              match Cli.last_arg (str "-t") optlist with
              | Some a => Some (split a ",")
              | None => Cli.tagFilter v
              end;
            Cli.logLevel :=
              match Cli.last_arg (str "-l") optlist with
              | Some a => Some a
              | None => Cli.logLevel v
              end;
            Cli.spaceColumns := Cli.has_option (str "-s") optlist || Cli.spaceColumns v |}.
Proof.
  induction optlist as [|[o a] rest IH]; intros v Hh.
  - destruct v. reflexivity.
  - unfold Cli.has_option in Hh. cbn [existsb fst] in Hh.
    apply orb_false_iff in Hh. destruct Hh as [Ho Hrest].
    cbn [Cli.option_loop Cli.last_arg Cli.has_option existsb fst].
    unfold Cli.option_step.
    destruct (str_eqb o (str "-o")) eqn:E1;
      [apply FilterFacts.str_eqb_eq in E1; subst o |
       destruct (str_eqb o (str "-l")) eqn:E2;
       [apply FilterFacts.str_eqb_eq in E2; subst o |
        destruct (str_eqb o (str "-t")) eqn:E3;
        [apply FilterFacts.str_eqb_eq in E3; subst o |
         destruct (str_eqb o (str "-s")) eqn:E4;
         [apply FilterFacts.str_eqb_eq in E4; subst o | rewrite Ho]]]];
      rewrite (IH _ Hrest); cbn [Cli.outputFile Cli.tagFilter Cli.logLevel Cli.spaceColumns];
      repeat match goal with
             | |- context [str_eqb (str ?x) (str ?y)] =>
                 change (str_eqb (str x) (str y)) with false
             end;
      f_equal; f_equal;
      try (repeat match goal with
                  | |- context [Cli.last_arg ?x rest] => destruct (Cli.last_arg x rest)
                  end; reflexivity);
      try (cbn [orb]; reflexivity);
      try (fold (Cli.has_option (str "-s") rest);
           destruct (Cli.has_option (str "-s") rest); reflexivity).
Qed.

End CliFacts.

Module CliRun.

Lemma main_resolved fs isfile optlist args :
  Forall (fun p => isfile p = true) args ->
  Cli.has_option (str "-h") optlist = false ->
  Cli.main fs isfile (Cli.Parsed optlist args)
  = match main fs args (Cli.last_arg (str "-o") optlist)
               (Cli.last_arg (str "-l") optlist)
               (option_map (fun a => split a ",") (Cli.last_arg (str "-t") optlist))
               (Cli.has_option (str "-s") optlist) with
    | Some sink => Cli.Finished sink
    | None => Cli.Uncaught
    end.
Proof.
  intros Ha Hh. unfold Cli.main.
  rewrite (CliFacts.first_invalid_none isfile args Ha).
  rewrite (CliFacts.option_loop_resolved optlist Cli.initial_locals Hh).
  cbn [Cli.outputFile Cli.tagFilter Cli.logLevel Cli.spaceColumns Cli.initial_locals].
  rewrite orb_false_r.
  destruct (Cli.last_arg (str "-o") optlist), (Cli.last_arg (str "-l") optlist),
    (Cli.last_arg (str "-t") optlist); reflexivity.
Qed.

End CliRun.

(** X2.  The paths are checked before the options are looked at: when
    some argument is not a file, the script prints the first such path
    after [Path isn't valid: ] and exits with code 3, whatever the options
    are ([-h] included) and without reading any file. *)
Theorem X2_invalid_path_reported fs isfile optlist before path after :
  Forall (fun p => isfile p = true) before ->
  isfile path = false ->
  Cli.main fs isfile (Cli.Parsed optlist (before ++ path :: after))
  = Cli.Exit 3 (str "Path isn't valid: " ++ path ++ [LF]).
Proof.
  intros Hb Hp. unfold Cli.main.
  rewrite (CliFacts.first_invalid_at isfile before path after Hb Hp).
  reflexivity.
Qed.

Lemma X2_invalid_path_reported_witness :
  Cli.main (fun _ => None) (fun p => str_eqb p (str "a.txt"))
           (Cli.Parsed [(str "-h", [])] ([str "a.txt"] ++ str "b.txt" :: [str "c.txt"]))
  = Cli.Exit 3 (str "Path isn't valid: " ++ str "b.txt" ++ [LF]).
Proof.
  apply X2_invalid_path_reported.
  - repeat constructor.
  - reflexivity.
Defined.

(** X3.  When every argument is a file and [-h] is among the options,
    the script prints the help text and exits with code 0; no file is
    read and none is written, whatever the other options are. *)
Theorem X3_help_exits fs isfile optlist args :
  Forall (fun p => isfile p = true) args ->
  Cli.has_option (str "-h") optlist = true ->
  Cli.main fs isfile (Cli.Parsed optlist args) = Cli.Exit 0 (HELP_TEXT ++ [LF]).
Proof.
  intros Ha Hh. unfold Cli.main.
  rewrite (CliFacts.first_invalid_none isfile args Ha).
  apply (CliFacts.option_loop_help optlist Cli.initial_locals) in Hh.
  rewrite Hh. reflexivity.
Qed.

Lemma X3_help_exits_witness :
  Cli.main (fun _ => None) (fun _ => true)
           (Cli.Parsed [(str "-o", str "out.csv"); (str "-h", []); (str "-s", [])]
                       [str "a.txt"])
  = Cli.Exit 0 (HELP_TEXT ++ [LF]).
Proof.
  apply X3_help_exits.
  - repeat constructor.
  - reflexivity.
Defined.

(** X4.  When every argument is a file and [-h] is not among the
    options, the script runs the reading and writing loops with the
    argument of the last [-o] as output file, that of the last [-l] as
    level filter, that of the last [-t] split at its commas as tag filter,
    and aligned output exactly when [-s] occurs; an option repeated
    earlier is overridden. *)
Theorem X4_last_option_wins fs isfile optlist args :
  Forall (fun p => isfile p = true) args ->
  Cli.has_option (str "-h") optlist = false ->
  Cli.main fs isfile (Cli.Parsed optlist args)
  = match main fs args (Cli.last_arg (str "-o") optlist)
               (Cli.last_arg (str "-l") optlist)
               (option_map (fun a => split a ",") (Cli.last_arg (str "-t") optlist))
               (Cli.has_option (str "-s") optlist) with
    | Some sink => Cli.Finished sink
    | None => Cli.Uncaught
    end.
Proof. exact (CliRun.main_resolved fs isfile optlist args). Qed.

Lemma X4_last_option_wins_witness :
  Cli.main (fun _ => Some [str "(lmf1)[2020-01-01 00:00:00] {I} io: x"]) (fun _ => true)
           (Cli.Parsed [(str "-l", str "D"); (str "-t", str "io,net"); (str "-l", str "I")]
                       [str "a.txt"])
  = match main (fun _ => Some [str "(lmf1)[2020-01-01 00:00:00] {I} io: x"]) [str "a.txt"]
               None (Some (str "I")) (Some [str "io"; str "net"]) false with
    | Some sink => Cli.Finished sink
    | None => Cli.Uncaught
    end.
Proof.
  apply (X4_last_option_wins
           (fun _ => Some [str "(lmf1)[2020-01-01 00:00:00] {I} io: x"]) (fun _ => true)
           [(str "-l", str "D"); (str "-t", str "io,net"); (str "-l", str "I")]
           [str "a.txt"]).
  - repeat constructor.
  - reflexivity.
Defined.

(** X5.  With no path argument, no [-h] and no [-o], the script ends
    normally and prints nothing: an empty list of paths is not reported,
    the [No input path(s) provided] message is not produced. *)
Theorem X5_no_paths_silent fs isfile optlist :
  Cli.has_option (str "-h") optlist = false ->
  Cli.last_arg (str "-o") optlist = None ->
  Cli.main fs isfile (Cli.Parsed optlist [])
  = Cli.Finished {| outputFile := None; stdout := [] |}.
Proof.
  intros Hh Ho.
  rewrite (CliRun.main_resolved fs isfile optlist []); [| constructor | assumption].
  rewrite Ho. reflexivity.
Qed.

Lemma X5_no_paths_silent_witness :
  Cli.main (fun _ => None) (fun _ => false)
           (Cli.Parsed [(str "-l", str "D"); (str "-s", []); (str "-t", str "a,b")] [])
  = Cli.Finished {| outputFile := None; stdout := [] |}.
Proof.
  apply X5_no_paths_silent; reflexivity.
Defined.

(** ** The writing loop *)

Module WriteFacts.

Lemma output_log_line_file e f out sc g :
  exists text,
    output_log_line e {| outputFile := Some f; stdout := out |} sc g
    = Some {| outputFile := Some {| name := name f; written := written f ++ text ++ [LF] |};
              stdout := out |}.
Proof.
  unfold output_log_line. cbn [outputFile stdout].
  destruct (str_eqb (slice_from (snd (splitext (name f))) 1) (str "csv")).
  - unfold to_csv_string. rewrite FormatFacts.format_CSV.
    eexists. unfold write. cbn [name written]. rewrite <- app_assoc. reflexivity.
  - destruct sc.
    + unfold to_spaced_string. rewrite FormatFacts.format_LOG.
      eexists. unfold write. cbn [name written]. rewrite <- app_assoc. reflexivity.
    + eexists. unfold write. cbn [name written]. rewrite <- app_assoc. reflexivity.
Qed.

Lemma output_log_line_stdout e out sc g :
  exists text,
    output_log_line e {| outputFile := None; stdout := out |} sc g
    = Some {| outputFile := None; stdout := out ++ text ++ [LF] |}.
Proof.
  unfold output_log_line. cbn [outputFile stdout]. destruct sc.
  - unfold to_spaced_string. rewrite FormatFacts.format_LOG. eexists. reflexivity.
  - eexists. reflexivity.
Qed.

Lemma write_lines_file sc g es : forall f out,
  exists records,
    length records = length es
    /\ write_lines es {| outputFile := Some f; stdout := out |} sc g
       = Some {| outputFile :=
                   Some {| name := name f;
                           written := written f ++ flat_map (fun r => r ++ [LF]) records |};
                 stdout := out |}.
Proof.
  induction es as [|e es IH]; intros f out.
  - exists []. split; [reflexivity |]. cbn [write_lines flat_map].
    rewrite app_nil_r. destruct f. reflexivity.
  - destruct (output_log_line_file e f out sc g) as (text & E).
    cbn [write_lines]. rewrite E.
    destruct (IH {| name := name f; written := written f ++ text ++ [LF] |} out)
      as (records & Hl & Hw).
    exists (text :: records). split; [simpl; congruence |].
    rewrite Hw. cbn [name written flat_map]. repeat rewrite <- app_assoc. reflexivity.
Qed.

Lemma write_lines_stdout sc g es : forall out,
  exists records,
    length records = length es
    /\ write_lines es {| outputFile := None; stdout := out |} sc g
       = Some {| outputFile := None;
                 stdout := out ++ flat_map (fun r => r ++ [LF]) records |}.
Proof.
  induction es as [|e es IH]; intros out.
  - exists []. split; [reflexivity |]. cbn [write_lines flat_map].
    rewrite app_nil_r. reflexivity.
  - destruct (output_log_line_stdout e out sc g) as (text & E).
    cbn [write_lines]. rewrite E.
    destruct (IH (out ++ text ++ [LF])) as (records & Hl & Hw).
    exists (text :: records). split; [simpl; congruence |].
    rewrite Hw. cbn [flat_map]. repeat rewrite <- app_assoc. reflexivity.
Qed.

Lemma write_lines_raw_stdout g es : forall out,
  write_lines es {| outputFile := None; stdout := out |} false g
  = Some {| outputFile := None;
            stdout := out ++ flat_map (fun e => strip (rawValue e) ++ [LF]) es |}.
Proof.
  induction es as [|e es IH]; intros out.
  - cbn [write_lines flat_map]. rewrite app_nil_r. reflexivity.
  - cbn [write_lines]. unfold output_log_line at 1. cbn [outputFile stdout].
    rewrite IH. cbn [flat_map]. unfold __str__.
    repeat rewrite <- app_assoc. reflexivity.
Qed.

Lemma write_lines_some es : forall sink sc g,
  exists sink', write_lines es sink sc g = Some sink'.
Proof.
  intros [[f|] out] sc g.
  - destruct (write_lines_file sc g es f out) as (r & _ & E). eauto.
  - destruct (write_lines_stdout sc g es out) as (r & _ & E). eauto.
Qed.

Lemma read_paths_none fs lf tf paths : forall logLines g,
  read_paths fs paths lf tf logLines g = None
  <-> exists path, In path paths /\ fs path = None.
Proof.
  induction paths as [|path paths IH]; intros logLines g.
  - cbn [read_paths]. split; [discriminate | intros (p & [] & _)].
  - cbn [read_paths]. unfold read_through_input_file.
    destruct (fs path) as [input|] eqn:E.
    + destruct (fold_left (scan_line lf tf) input ([], g)) as [found g'].
      rewrite IH. split.
      * intros (p & Hp & Hn). exists p. split; [right |]; assumption.
      * intros (p & [-> | Hp] & Hn); [congruence |]. exists p. auto.
    + split; [| reflexivity]. intros _. exists path. split; [left; reflexivity | assumption].
Qed.

End WriteFacts.

(** X6.  Once the output file, if any, is open, the only way [main] ends
    in an exception is an input file that cannot be opened: the run fails
    exactly when some path of the list is unreadable.  Formatting the
    records and writing them never raise. *)
Theorem X6_fails_iff_unreadable fs inputPaths out logLevel tagFilter spaceColumns :
  main fs inputPaths out logLevel tagFilter spaceColumns = None
  <-> exists path, In path inputPaths /\ fs path = None.
Proof.
  unfold main.
  destruct (read_paths fs inputPaths logLevel tagFilter [] initial_widths)
    as [[logLines g]|] eqn:E.
  - split.
    + intros H.
      destruct (WriteFacts.write_lines_some logLines
                  {| outputFile := option_map open_w out; stdout := [] |} spaceColumns g)
        as (sink' & Hs).
      congruence.
    + intros H.
      apply (WriteFacts.read_paths_none fs logLevel tagFilter inputPaths [] initial_widths) in H.
      congruence.
  - split; [| reflexivity]. intros _.
    apply (WriteFacts.read_paths_none fs logLevel tagFilter inputPaths [] initial_widths).
    assumption.
Qed.

(** X7.  One record per accepted line, each followed by one line feed,
    all to one destination: with [-o] they are the whole content of the
    file and nothing is printed, without it they are printed and no file
    is written. *)
Theorem X7_one_record_per_line fs inputPaths contents out logLevel tagFilter spaceColumns :
  readable fs inputPaths contents ->
  exists records,
    length records = length (filter (accepted logLevel tagFilter) (concat contents))
    /\ main fs inputPaths out logLevel tagFilter spaceColumns
       = Some match out with
              | Some n =>
                  {| outputFile :=
                       Some {| name := n;
                               written := flat_map (fun r => r ++ [LF]) records |};
                     stdout := [] |}
              | None =>
                  {| outputFile := None;
                     stdout := flat_map (fun r => r ++ [LF]) records |}
              end.
Proof.
  intros Hr. unfold main.
  rewrite (ScanFacts.read_paths_spec fs logLevel tagFilter inputPaths contents Hr).
  rewrite ScanFacts.flat_map_filter_concat. cbn [app].
  set (g := grow initial_widths _).
  set (es := map parse_log_line _).
  assert (Hl : length es = length (filter (accepted logLevel tagFilter) (concat contents)))
    by apply length_map.
  destruct out as [n|]; cbn [option_map].
  - destruct (WriteFacts.write_lines_file spaceColumns g es (open_w n) [])
      as (records & Hlen & E).
    exists records. split; [congruence |]. rewrite E. reflexivity.
  - destruct (WriteFacts.write_lines_stdout spaceColumns g es []) as (records & Hlen & E).
    exists records. split; [congruence |]. rewrite E. reflexivity.
Qed.

Lemma X7_one_record_per_line_witness :
  exists records,
    length records = 2
    /\ main (fun _ => Some [ str "(lmf1)[2020-01-01 00:00:00] {I} io: x";
                             str "noise";
                             str "(lmf1)[2020-01-01 00:00:01] {W} io: y" ])
            [str "a.txt"] (Some (str "out.txt")) None None true
       = Some {| outputFile :=
                   Some {| name := str "out.txt";
                           written := flat_map (fun r => r ++ [LF]) records |};
                 stdout := [] |}.
Proof.
  destruct (X7_one_record_per_line
              (fun _ => Some [ str "(lmf1)[2020-01-01 00:00:00] {I} io: x";
                               str "noise";
                               str "(lmf1)[2020-01-01 00:00:01] {W} io: y" ])
              [str "a.txt"]
              [[ str "(lmf1)[2020-01-01 00:00:00] {I} io: x";
                 str "noise";
                 str "(lmf1)[2020-01-01 00:00:01] {W} io: y" ]]
              (Some (str "out.txt")) None None true)
    as (records & Hl & E).
  - repeat constructor.
  - exists records. split; [| exact E].
    rewrite Hl. vm_compute. reflexivity.
Defined.

(** X8.  In raw mode on standard output the program prints exactly the
    lines that pass matcher and filter, in the order of the files and of
    their lines, each with the white space at its end removed and one line
    feed added. *)
Theorem X8_raw_output_is_filtered_input fs inputPaths contents logLevel tagFilter :
  readable fs inputPaths contents ->
  main fs inputPaths None logLevel tagFilter false
  = Some {| outputFile := None;
            stdout := flat_map (fun line => rstrip line ++ [LF])
                               (filter (accepted logLevel tagFilter) (concat contents)) |}.
Proof.
  intros Hr. unfold main.
  rewrite (ScanFacts.read_paths_spec fs logLevel tagFilter inputPaths contents Hr).
  rewrite ScanFacts.flat_map_filter_concat. cbn [app option_map].
  rewrite WriteFacts.write_lines_raw_stdout. cbn [app]. f_equal. f_equal.
  induction (concat contents) as [|line lines IH]; [reflexivity |].
  cbn [filter]. destruct (accepted logLevel tagFilter line) eqn:Ea; [| exact IH].
  cbn [map flat_map]. rewrite IH. f_equal. f_equal.
  unfold accepted in Ea. apply andb_true_iff in Ea. destruct Ea as [Hm _].
  apply PatternFacts.LOG_LINE_PATTERN_shape in Hm.
  destruct Hm as (d & t & l & g & r & e & -> & _).
  reflexivity.
Qed.

Lemma X8_raw_output_is_filtered_input_witness :
  main (fun _ => Some [ str "(lmf1)[2020-01-01 00:00:00] {I} io: x  " ++ [LF];
                        str "noise" ++ [LF] ])
       [str "a.txt"] None None None false
  = Some {| outputFile := None;
            stdout := str "(lmf1)[2020-01-01 00:00:00] {I} io: x" ++ [LF] |}.
Proof.
  rewrite (X8_raw_output_is_filtered_input
             (fun _ => Some [ str "(lmf1)[2020-01-01 00:00:00] {I} io: x  " ++ [LF];
                              str "noise" ++ [LF] ])
             [str "a.txt"]
             [[ str "(lmf1)[2020-01-01 00:00:00] {I} io: x  " ++ [LF];
                str "noise" ++ [LF] ]]).
  - vm_compute. reflexivity.
  - repeat constructor.
Defined.

(** ** Reading in batches, filtering early or late *)

Module BatchFacts.

Lemma read_paths_app fs lf tf paths1 paths2 : forall logLines g,
  read_paths fs (paths1 ++ paths2) lf tf logLines g
  = match read_paths fs paths1 lf tf logLines g with
    | Some (logLines', g') => read_paths fs paths2 lf tf logLines' g'
    | None => None
    end.
Proof.
  induction paths1 as [|path paths1 IH]; intros logLines g; [reflexivity |].
  cbn [app read_paths].
  destruct (read_through_input_file fs path lf tf g) as [[found g']|]; [apply IH | reflexivity].
Qed.

Lemma filter_late lf tf lines :
  map parse_log_line (filter (accepted lf tf) lines)
  = filter (fun e => matches_filters e lf tf)
           (map parse_log_line (filter (accepted None None) lines)).
Proof.
  assert (A : forall line,
             accepted lf tf line
             = re_match LOG_LINE_PATTERN line
               && matches_filters (parse_log_line line) lf tf) by reflexivity.
  assert (B : forall line, accepted None None line = re_match LOG_LINE_PATTERN line)
    by (intros line; unfold accepted; apply andb_true_r).
  induction lines as [|line lines IH]; [reflexivity |].
  cbn [filter]. rewrite A, B.
  destruct (re_match LOG_LINE_PATTERN line); cbn [andb]; [| exact IH].
  cbn [map filter].
  destruct (matches_filters (parse_log_line line) lf tf); cbn [map]; rewrite IH; reflexivity.
Qed.

Lemma widest_filter (f : LogLine -> pystr) p es :
  widest f (filter p es) <= widest f es.
Proof.
  induction es as [|e es IH]; [apply Nat.le_refl |].
  cbn [filter]. destruct (p e); rewrite ?ScanFacts.widest_cons; lia.
Qed.

Lemma widest_bound (f : LogLine -> pystr) es e :
  In e es -> length (f e) <= widest f es.
Proof.
  induction es as [|x es IH]; [intros [] |].
  rewrite ScanFacts.widest_cons. intros [-> | H]; [lia |].
  specialize (IH H). lia.
Qed.

End BatchFacts.

(** X9.  Reading a list of paths in two batches, the second starting
    from the list and the width counters the first has left, gives what
    reading the whole list at once gives; if a file of the first batch
    cannot be opened the second batch is not read. *)
Theorem X9_read_in_batches fs paths1 paths2 logLevel tagFilter logLines g :
  read_paths fs (paths1 ++ paths2) logLevel tagFilter logLines g
  = match read_paths fs paths1 logLevel tagFilter logLines g with
    | Some (logLines', g') => read_paths fs paths2 logLevel tagFilter logLines' g'
    | None => None
    end.
Proof. apply BatchFacts.read_paths_app. Qed.

(** X10.  Filtering while reading gives the same entries, in the same
    order, as reading without filter and filtering the entries afterwards;
    the width counters of the filtered run are at most those of the
    unfiltered one. *)
Theorem X10_filter_early_or_late fs inputPaths contents logLevel tagFilter :
  readable fs inputPaths contents ->
  exists every g1 some g2,
    read_paths fs inputPaths None None [] initial_widths = Some (every, g1)
    /\ read_paths fs inputPaths logLevel tagFilter [] initial_widths = Some (some, g2)
    /\ some = filter (fun e => matches_filters e logLevel tagFilter) every
    /\ LOG_LEVEL_WIDTH g2 <= LOG_LEVEL_WIDTH g1
    /\ TAG_WIDTH g2 <= TAG_WIDTH g1.
Proof.
  intros Hr.
  rewrite (ScanFacts.read_paths_spec fs None None inputPaths contents Hr).
  rewrite (ScanFacts.read_paths_spec fs logLevel tagFilter inputPaths contents Hr).
  rewrite !ScanFacts.flat_map_filter_concat. cbn [app].
  do 4 eexists. split; [reflexivity |]. split; [reflexivity |].
  rewrite (BatchFacts.filter_late logLevel tagFilter (concat contents)).
  split; [reflexivity |].
  unfold grow, initial_widths. cbn [LOG_LEVEL_WIDTH TAG_WIDTH]. rewrite !Nat.max_0_l.
  split; apply BatchFacts.widest_filter.
Qed.

Lemma X10_filter_early_or_late_witness :
  exists every g1 some g2,
    read_paths (fun _ => Some [ str "(lmf1)[2020-01-01 00:00:00] {INFO} io: x";
                                str "(lmf1)[2020-01-01 00:00:01] {W} radio: y" ])
               [str "a.txt"] None None [] initial_widths = Some (every, g1)
    /\ read_paths (fun _ => Some [ str "(lmf1)[2020-01-01 00:00:00] {INFO} io: x";
                                   str "(lmf1)[2020-01-01 00:00:01] {W} radio: y" ])
                  [str "a.txt"] (Some (str "W")) None [] initial_widths = Some (some, g2)
    /\ some = filter (fun e => matches_filters e (Some (str "W")) None) every
    /\ LOG_LEVEL_WIDTH g2 <= LOG_LEVEL_WIDTH g1
    /\ TAG_WIDTH g2 <= TAG_WIDTH g1.
Proof.
  apply X10_filter_early_or_late
    with (contents := [[ str "(lmf1)[2020-01-01 00:00:00] {INFO} io: x";
                         str "(lmf1)[2020-01-01 00:00:01] {W} radio: y" ]]).
  repeat constructor.
Defined.

(** X11.  When none of the four fields holds a comma, the CSV record
    can be read back: splitting it at the commas gives timestamp, level,
    tag and message again. *)
Theorem X11_csv_reads_back e :
  ~ In "," (timestamp e) -> ~ In "," (logLevel e) ->
  ~ In "," (tag e) -> ~ In "," (message e) ->
  exists text,
    to_csv_string e = Some text
    /\ split text "," = [timestamp e; logLevel e; tag e; message e].
Proof.
  intros H1 H2 H3 H4. unfold to_csv_string.
  rewrite FormatFacts.format_CSV.
  assert (C : forall v, ~ In "," v -> contains "," v = false).
  { intros v Hv. destruct (contains "," v) eqn:E; [| reflexivity].
    apply LineFacts.contains_In in E. contradiction. }
  rewrite !C by assumption.
  eexists. split; [reflexivity |].
  rewrite !SplitFacts.split_at by assumption.
  rewrite SplitFacts.split_no_sep by assumption. reflexivity.
Qed.

Lemma X11_csv_reads_back_witness :
  exists text,
    to_csv_string (parse_log_line (str "(lmf1)[2020-01-01 00:00:00] {I} io: x y"))
    = Some text
    /\ split text "," = [str "2020-01-01 00:00:00"; str "I"; str "io"; str "x y"].
Proof.
  apply (X11_csv_reads_back (parse_log_line (str "(lmf1)[2020-01-01 00:00:00] {I} io: x y")));
    vm_compute; intuition discriminate.
Defined.

(** ** What the entries of accepted lines look like *)

Module EntryFacts.
Import PyStrFacts ParserFacts StripFacts.

Lemma matched_details line :
  re_match LOG_LINE_PATTERN line = true ->
  exists d t l g rest eol,
    parse_log_line line
    = mkLogLine line (str "lmf" ++ d) t l (strip (" " :: g)) (strip (" " :: rest ++ eol))
    /\ d <> [] /\ forallb is_digit d = true
    /\ length t = 19 /\ forallb is_stamp t = true
    /\ l <> [] /\ forallb is_word l = true
    /\ g <> [] /\ forallb not_colon g = true
    /\ forallb dot rest = true
    /\ (eol = [] \/ eol = [LF]).
Proof.
  intros H. apply PatternFacts.LOG_LINE_PATTERN_shape in H.
  destruct H as (d & t & l & g & rest & eol & E & Hd0 & Hd & Ht0 & Ht & Hl0 & Hl
                 & Hg0 & Hg & Hr & He).
  exists d, t, l, g, rest, eol.
  assert (N1 : ~ In ")" d) by (eapply forallb_not_In; [eassumption | reflexivity]).
  assert (N2 : ~ In "[" d) by (eapply forallb_not_In; [eassumption | reflexivity]).
  assert (N3 : ~ In "]" t) by (eapply forallb_not_In; [eassumption | reflexivity]).
  assert (N4 : ~ In "}" l) by (eapply forallb_not_In; [eassumption | reflexivity]).
  assert (N5 : ~ In ":" g) by (eapply forallb_not_In; [eassumption | reflexivity]).
  split; [| repeat split; assumption].
  apply (parse_log_line_pieces (str "lmf" ++ d) t l (" " :: g) (" " :: rest ++ eol)).
  - unfold str. not_in.
  - unfold str. not_in.
  - assumption.
  - assumption.
  - not_in.
  - rewrite E. unfold str. list_eq.
Qed.

Lemma strip_spaces_r s ws :
  forallb isspace ws = true -> strip (s ++ ws) = strip s.
Proof.
  intros Hws. unfold strip.
  destruct (lstrip_split s) as (w1 & E & Hw1 & Hh).
  rewrite E at 1. rewrite <- app_assoc, lstrip_spaces by assumption.
  destruct (lstrip s) as [|a y] eqn:Ey.
  - cbn [app]. destruct (lstrip_split ws) as (w2 & E2 & _ & Hh2).
    destruct (lstrip ws) as [|b u] eqn:Eb; [reflexivity |].
    exfalso. specialize (Hh2 b u eq_refl).
    rewrite forallb_forall in Hws. rewrite (Hws b) in Hh2; [discriminate |].
    rewrite E2. apply in_or_app. right. left. reflexivity.
  - rewrite lstrip_head.
    + apply rstrip_spaces. assumption.
    + intros b u [= <- <-]. apply (Hh a y). reflexivity.
Qed.

Lemma message_no_LF rest eol :
  forallb dot rest = true -> eol = [] \/ eol = [LF] ->
  ~ In LF (strip (" " :: rest ++ eol)).
Proof.
  intros Hr He Hin.
  assert (Hin' : In LF (strip (" " :: rest))).
  { destruct He as [-> | ->].
    - rewrite app_nil_r in Hin. assumption.
    - change (" " :: rest ++ [LF]) with ((" " :: rest) ++ [LF]) in Hin.
      rewrite strip_spaces_r in Hin by reflexivity. assumption. }
  apply strip_In in Hin'. destruct Hin' as [Hc | Hin']; [discriminate |].
  revert Hin'. eapply forallb_not_In; [eassumption | reflexivity].
Qed.

End EntryFacts.

(** X12.  The entry of an accepted line keeps what the pattern
    checked: its format is [lmf] and digits, its timestamp has 19
    characters of the timestamp set, its level is a non-empty word; its tag
    holds no colon, its message no line feed, and neither has white space
    at its ends. *)
Theorem X12_entry_invariants line :
  re_match LOG_LINE_PATTERN line = true ->
  (exists d, logFormat (parse_log_line line) = str "lmf" ++ d
             /\ d <> [] /\ forallb is_digit d = true)
  /\ length (timestamp (parse_log_line line)) = 19
  /\ forallb is_stamp (timestamp (parse_log_line line)) = true
  /\ logLevel (parse_log_line line) <> []
  /\ forallb is_word (logLevel (parse_log_line line)) = true
  /\ ~ In ":" (tag (parse_log_line line))
  /\ clean (tag (parse_log_line line))
  /\ ~ In LF (message (parse_log_line line))
  /\ clean (message (parse_log_line line)).
Proof.
  intros H.
  destruct (EntryFacts.matched_details line H)
    as (d & t & l & g & rest & eol & P & Hd0 & Hd & Ht0 & Ht & Hl0 & Hl & Hg0 & Hg & Hr & He).
  rewrite P. cbn [logFormat timestamp logLevel tag message].
  split; [exists d; auto |].
  repeat match goal with |- _ /\ _ => split end; try assumption.
  - intros Hin. apply StripFacts.strip_In in Hin.
    destruct Hin as [Hc | Hin]; [discriminate |].
    revert Hin. eapply PyStrFacts.forallb_not_In; [eassumption | reflexivity].
  - apply StripFacts.strip_clean.
  - apply EntryFacts.message_no_LF; assumption.
  - apply StripFacts.strip_clean.
Qed.

Lemma X12_entry_invariants_witness :
  length (timestamp (parse_log_line
                       (str "(lmf12)[2020-01-01 00:00:00] {I}  a b : x" ++ [LF]))) = 19.
Proof.
  refine (proj1 (proj2 (X12_entry_invariants
                          (str "(lmf12)[2020-01-01 00:00:00] {I}  a b : x" ++ [LF]) _))).
  vm_compute. reflexivity.
Defined.

(** X13.  After all files are read the level and tag of every accepted
    entry fit the width counters, so in aligned output every record has
    the same number of columns before its message, apart from the length
    of its format: that length plus both counters plus 29. *)
Theorem X13_aligned_columns fs inputPaths contents logLevel tagFilter :
  readable fs inputPaths contents ->
  exists logLines g,
    read_paths fs inputPaths logLevel tagFilter [] initial_widths = Some (logLines, g)
    /\ forall e, In e logLines ->
         length (Log.logLevel e) <= LOG_LEVEL_WIDTH g
         /\ length (tag e) <= TAG_WIDTH g
         /\ exists head,
              to_spaced_string e (LOG_LEVEL_WIDTH g) (TAG_WIDTH g)
              = Some (head ++ message e)
              /\ length head
                 = length (logFormat e) + LOG_LEVEL_WIDTH g + TAG_WIDTH g + 29.
Proof.
  intros Hr.
  rewrite (ScanFacts.read_paths_spec fs logLevel tagFilter inputPaths contents Hr).
  rewrite ScanFacts.flat_map_filter_concat. cbn [app].
  do 2 eexists. split; [reflexivity |].
  intros e He.
  unfold grow, initial_widths. cbn [LOG_LEVEL_WIDTH TAG_WIDTH]. rewrite !Nat.max_0_l.
  pose proof (BatchFacts.widest_bound Log.logLevel _ e He) as B1.
  pose proof (BatchFacts.widest_bound tag _ e He) as B2.
  split; [assumption |]. split; [assumption |].
  set (lw := widest Log.logLevel _) in *. set (tw := widest tag _) in *.
  apply in_map_iff in He. destruct He as (line & <- & Hl).
  apply filter_In in Hl. destruct Hl as [_ Ha].
  unfold accepted in Ha. apply andb_true_iff in Ha. destruct Ha as [Hm _].
  destruct (EntryFacts.matched_details line Hm)
    as (d & t & l & g' & rest & eol & P & _ & _ & Ht0 & _).
  rewrite P in *. cbn [logFormat timestamp Log.logLevel tag message] in *.
  unfold to_spaced_string. cbn [logFormat timestamp Log.logLevel tag message].
  rewrite FormatFacts.format_LOG.
  exists ("(" :: (str "lmf" ++ d) ++ ")" :: "[" :: t ++ "]" :: " " :: "{" :: ljust l lw
              ++ "}" :: " " :: ljust (strip (" " :: g')) tw ++ [":"; " "]).
  split.
  - f_equal. cbn [app]. repeat (rewrite <- app_assoc; cbn [app]). reflexivity.
  - repeat first [ progress cbn [length] | rewrite length_app ].
    rewrite !FormatFacts.ljust_length, Ht0. lia.
Qed.

Lemma X13_aligned_columns_witness :
  exists logLines g,
    read_paths (fun _ => Some [ str "(lmf1)[2020-01-01 00:00:00] {INFO} io: x";
                                str "(lmf1)[2020-01-01 00:00:01] {W} radio: y" ])
               [str "a.txt"] None None [] initial_widths = Some (logLines, g)
    /\ forall e, In e logLines ->
         length (logLevel e) <= LOG_LEVEL_WIDTH g
         /\ length (tag e) <= TAG_WIDTH g
         /\ exists head,
              to_spaced_string e (LOG_LEVEL_WIDTH g) (TAG_WIDTH g)
              = Some (head ++ message e)
              /\ length head
                 = length (logFormat e) + LOG_LEVEL_WIDTH g + TAG_WIDTH g + 29.
Proof.
  apply X13_aligned_columns
    with (contents := [[ str "(lmf1)[2020-01-01 00:00:00] {INFO} io: x";
                         str "(lmf1)[2020-01-01 00:00:01] {W} radio: y" ]]).
  repeat constructor.
Defined.

Module RenderFacts.
Import PyStrFacts ParserFacts StripFacts LineFacts.

Lemma not_in_forallb c w :
  ~ In c w -> forallb (fun a => negb (Ascii.eqb a c)) w = true.
Proof.
  induction w as [|a w IH]; intros Hn; [reflexivity |].
  cbn [forallb]. apply andb_true_iff. split.
  - apply negb_true_iff. apply Ascii.eqb_neq. intros ->. apply Hn. left. reflexivity.
  - apply IH. intros Hin. apply Hn. right. assumption.
Qed.

(** A line of the right shape whose tag part is a colon at once is
    impossible. *)
Lemma shape_needs_tag d t l m :
  forallb is_digit d = true -> forallb is_stamp t = true -> forallb is_word l = true ->
  ~ line_shape ("(" :: (str "lmf" ++ d) ++ ")" :: "[" :: t ++ "]" :: " " :: "{" :: l
                    ++ "}" :: " " :: [] ++ ":" :: " " :: m).
Proof.
  intros Hd Ht Hl (d' & t' & l' & g' & r' & e' & E & _ & Hd' & _ & Ht' & _ & Hl' & Hg0 & Hg & _).
  assert (A1 : after_first "}"
                 ("(" :: (str "lmf" ++ d) ++ ")" :: "[" :: t ++ "]" :: " " :: "{" :: l
                      ++ "}" :: " " :: [] ++ ":" :: " " :: m)
               = Some (" " :: ":" :: " " :: m)).
  { replace ("(" :: (str "lmf" ++ d) ++ ")" :: "[" :: t ++ "]" :: " " :: "{" :: l
                 ++ "}" :: " " :: [] ++ ":" :: " " :: m)
      with (("(" :: (str "lmf" ++ d) ++ ")" :: "[" :: t ++ "]" :: " " :: "{" :: l)
              ++ "}" :: " " :: ":" :: " " :: m)
      by (unfold str; list_eq).
    apply after_first_at.
    assert (~ In "}" d) by (eapply forallb_not_In; [eassumption | reflexivity]).
    assert (~ In "}" t) by (eapply forallb_not_In; [eassumption | reflexivity]).
    assert (~ In "}" l) by (eapply forallb_not_In; [eassumption | reflexivity]).
    unfold str. not_in. }
  rewrite E in A1.
  replace (str "(lmf" ++ d' ++ str ")[" ++ t' ++ str "] {" ++ l' ++ str "} " ++ g'
               ++ str ": " ++ r' ++ e')
    with ((str "(lmf" ++ d' ++ str ")[" ++ t' ++ str "] {" ++ l')
            ++ "}" :: " " :: g' ++ str ": " ++ r' ++ e') in A1
    by (unfold str; list_eq).
  rewrite after_first_at in A1.
  - injection A1 as A1. destruct g' as [|x g']; [congruence |].
    cbn [app] in A1. injection A1 as -> _.
    cbn [forallb] in Hg. apply andb_true_iff in Hg. destruct Hg as [Hx _]. discriminate.
  - assert (~ In "}" d') by (eapply forallb_not_In; [eassumption | reflexivity]).
    assert (~ In "}" t') by (eapply forallb_not_In; [eassumption | reflexivity]).
    assert (~ In "}" l') by (eapply forallb_not_In; [eassumption | reflexivity]).
    unfold str. not_in.
Qed.

End RenderFacts.

(** X14.  Writing the entry of an accepted line back in the plain log
    format gives a line the matcher accepts again exactly when the entry's
    tag is not empty: a line whose tag is nothing but white space is
    accepted once, but what the program writes for it, with the colon
    directly after the space that follows the level, is not. *)
Theorem X14_rewritten_line_accepted line :
  re_match LOG_LINE_PATTERN line = true ->
  exists again,
    to_spaced_string (parse_log_line line) 0 0 = Some again
    /\ (re_match LOG_LINE_PATTERN again = true <-> tag (parse_log_line line) <> []).
Proof.
  intros H.
  destruct (EntryFacts.matched_details line H)
    as (d & t & l & g & rest & eol & P & Hd0 & Hd & Ht0 & Ht & Hl0 & Hl & Hg0 & Hg & Hr & He).
  assert (Nt : ~ In ":" (strip (" " :: g))).
  { intros Hin. apply StripFacts.strip_In in Hin.
    destruct Hin as [Hc | Hin]; [discriminate |].
    revert Hin. eapply PyStrFacts.forallb_not_In; [eassumption | reflexivity]. }
  pose proof (EntryFacts.message_no_LF rest eol Hr He) as Nm.
  rewrite P. unfold to_spaced_string. cbn [logFormat timestamp logLevel tag message].
  rewrite FormatFacts.format_LOG.
  rewrite !FormatFacts.ljust_fits by apply Nat.le_0_l.
  eexists. split; [reflexivity |].
  rewrite PatternFacts.LOG_LINE_PATTERN_shape. split.
  - intros Hs Ht'. rewrite Ht' in Hs.
    exact (RenderFacts.shape_needs_tag d t l _ Hd Ht Hl Hs).
  - intros Hne.
    exists d, t, l, (strip (" " :: g)), (strip (" " :: rest ++ eol)), [].
    split; [unfold str; rewrite app_nil_r; ParserFacts.list_eq |].
    repeat match goal with |- _ /\ _ => split end; try assumption.
    + apply RenderFacts.not_in_forallb. assumption.
    + apply RenderFacts.not_in_forallb. assumption.
    + left. reflexivity.
Qed.

Lemma X14_rewritten_line_accepted_witness :
  exists again,
    to_spaced_string
      (parse_log_line (str "(lmf1)[2020-01-01 00:00:00] {I}  : lost")) 0 0 = Some again
    /\ re_match LOG_LINE_PATTERN again = false.
Proof.
  destruct (X14_rewritten_line_accepted
              (str "(lmf1)[2020-01-01 00:00:00] {I}  : lost"))
    as (again & E & Hiff).
  - vm_compute. reflexivity.
  - exists again. split; [exact E |].
    destruct (re_match LOG_LINE_PATTERN again) eqn:Em; [| reflexivity].
    exfalso. apply (proj1 Hiff eq_refl). vm_compute. reflexivity.
Defined.

(** X15.  Parsing what aligned mode writes for the entry of an accepted
    line gives back its format, timestamp, tag and message, for any
    widths; the level comes back with the padding the width added, so it
    is the same level only when the width does not exceed its length. *)
Theorem X15_aligned_line_reparsed line logLevelWidth tagWidth :
  re_match LOG_LINE_PATTERN line = true ->
  exists again,
    to_spaced_string (parse_log_line line) logLevelWidth tagWidth = Some again
    /\ logLevel (parse_log_line again)
       = ljust (logLevel (parse_log_line line)) logLevelWidth
    /\ tag (parse_log_line again) = tag (parse_log_line line)
    /\ message (parse_log_line again) = message (parse_log_line line)
    /\ logFormat (parse_log_line again) = logFormat (parse_log_line line)
    /\ timestamp (parse_log_line again) = timestamp (parse_log_line line).
Proof.
  intros H.
  destruct (ParseFacts.parse_log_line_matched line H)
    as (d & t & l & g & r & P & _ & Hd & Ht & Hl & Hg).
  rewrite P. unfold to_spaced_string.
  cbn [logFormat timestamp logLevel tag message].
  rewrite FormatFacts.format_LOG.
  eexists. split; [reflexivity |].
  assert (N1 : ~ In ")" d) by (eapply PyStrFacts.forallb_not_In; [eassumption | reflexivity]).
  assert (N2 : ~ In "[" d) by (eapply PyStrFacts.forallb_not_In; [eassumption | reflexivity]).
  assert (N3 : ~ In "]" t) by (eapply PyStrFacts.forallb_not_In; [eassumption | reflexivity]).
  assert (N4 : ~ In "}" l) by (eapply PyStrFacts.forallb_not_In; [eassumption | reflexivity]).
  assert (N5 : ~ In ":" g) by (eapply PyStrFacts.forallb_not_In; [eassumption | reflexivity]).
  assert (N6 : ~ In ":" (strip (" " :: g))).
  { intros Hin. apply StripFacts.strip_In in Hin. destruct Hin as [Hin | Hin];
      [discriminate | exact (N5 Hin)]. }
  assert (N7 : ~ In "}" (ljust l logLevelWidth)).
  { unfold ljust. intros Hin. apply in_app_or in Hin.
    destruct Hin as [Hin | Hin]; [exact (N4 Hin) |].
    apply repeat_spec in Hin. discriminate. }
  erewrite (ParserFacts.parse_log_line_pieces
              (str "lmf" ++ d) t (ljust l logLevelWidth)
              (" " :: ljust (strip (" " :: g)) tagWidth)
              (" " :: strip r)); try assumption; try reflexivity.
  - cbn [logFormat timestamp logLevel tag message]. repeat split.
    + unfold ljust.
      apply (StripFacts.strip_padded (strip (" " :: g)) [" "]
               (repeat " " (tagWidth - length (strip (" " :: g))))).
      * apply StripFacts.strip_clean.
      * reflexivity.
      * apply FormatFacts.spaces_isspace.
    + rewrite <- (app_nil_r (strip r)) at 1.
      apply (StripFacts.strip_padded (strip r) [" "] []);
        [apply StripFacts.strip_clean | reflexivity | reflexivity].
  - unfold str. ParserFacts.not_in.
  - unfold str. ParserFacts.not_in.
  - unfold ljust. intros Hin. cbn [In] in Hin. rewrite in_app_iff in Hin.
    destruct Hin as [Hin | [Hin | Hin]]; [discriminate | exact (N6 Hin) |].
    apply repeat_spec in Hin. discriminate.
Qed.

Lemma X15_aligned_line_reparsed_witness :
  exists again,
    to_spaced_string (parse_log_line (str "(lmf1)[2020-01-01 00:00:00] {I} io: x")) 5 8
    = Some again
    /\ logLevel (parse_log_line again) = str "I    "
    /\ tag (parse_log_line again) = str "io".
Proof.
  destruct (X15_aligned_line_reparsed (str "(lmf1)[2020-01-01 00:00:00] {I} io: x") 5 8)
    as (again & E & H1 & H2 & _).
  - vm_compute. reflexivity.
  - exists again. rewrite H1, H2. repeat split; try exact E; vm_compute; reflexivity.
Defined.

(** X16.  Tags and levels of accepted entries are stripped words, and
    the filters are compared as given: a tag filter all of whose members
    begin or end with white space, or a level filter that is empty or
    holds a character outside the word set, accepts no line at all. *)
Theorem X16_filters_that_never_match line logLevel tagFilter :
  (exists tf, tagFilter = Some tf /\ forall piece, In piece tf -> ~ clean piece)
  \/ (exists l, logLevel = Some l /\ (l = [] \/ forallb is_word l = false)) ->
  accepted logLevel tagFilter line = false.
Proof.
  intros Hbad. destruct (accepted logLevel tagFilter line) eqn:Ea; [| reflexivity].
  exfalso. unfold accepted in Ea. apply andb_true_iff in Ea. destruct Ea as [Hm Hf].
  apply FilterFacts.matches_filters_true in Hf. destruct Hf as [Hl Ht].
  destruct (EntryFacts.matched_details line Hm)
    as (d & t & l & g & rest & eol & P & _ & _ & _ & _ & Hl0 & Hlw & _).
  rewrite P in Hl, Ht. cbn [Log.logLevel tag] in Hl, Ht.
  destruct Hbad as [(tf & -> & Hp) | (l' & -> & Hl')].
  - specialize (Ht tf eq_refl). apply Hp in Ht. apply Ht. apply StripFacts.strip_clean.
  - specialize (Hl l' eq_refl). subst l'.
    destruct Hl' as [-> | Hw]; [congruence | congruence].
Qed.

Lemma X16_filters_that_never_match_witness :
  accepted None (Some [str "io" ++ [" "]; " " :: str "net"])
           (str "(lmf1)[2020-01-01 00:00:00] {I} io: x") = false.
Proof.
  apply X16_filters_that_never_match. left. eexists. split; [reflexivity |].
  intros piece [<- | [<- | []]] [Hh Hl].
  - specialize (Hl " " (rev (str "io")) eq_refl). discriminate.
  - specialize (Hh " " (str "net") eq_refl). discriminate.
Defined.
